(** * OneBox App Store screenshot driver

    A shallow embedding of [Scripts/generate_app_store_screenshots.py]:
    the static device table, the [ScreenshotGenerator] methods and [main],
    followed by the properties of the driver that its specification states.

    Modelling conventions.
    - The driver is sequential orchestration of external tools.  Every
      [subprocess.run] asks the environment [Env] for the outcome of the
      command, given everything the driver did before; the outcome is a
      completed process or a raised [Exception].
    - The output directory [Screenshots/AppStore] is the only state.  It is
      kept as the regular files at its top level and its immediate
      subdirectories with the regular files in each.  [ScreenshotGenerator]'s
      constructor has created it, so it exists throughout.  Path operations
      ([unlink], [mkdir], [rename], [open]) are modelled on such a tree,
      where they succeed.
    - File names are byte strings; [str.lower] is lower-casing of the ASCII
      letters.  Directory enumeration order ([glob], [iterdir]) is the
      enumeration order of the finite map.
    - Everything the driver prints or runs is appended to a trace. *)

From Stdlib Require Import ZArith String Ascii List Bool Lia.
From stdpp Require Import base option list gmap strings fin_maps.

Local Open Scope string_scope.
Local Open Scope Z_scope.
Local Open Scope list_scope.

(** ** Strings *)

Module Str.

Definition lower_ascii (c : ascii) : ascii :=
  let n := nat_of_ascii c in
  if (65 <=? n)%nat && (n <=? 90)%nat then ascii_of_nat (n + 32) else c.

(** [s.lower()] *)
Fixpoint lower (s : string) : string :=
  match s with
  | EmptyString => EmptyString
  | String c s' => String (lower_ascii c) (lower s')
  end.

(** [s.replace(a, b)] for one-character [a] and [b] *)
Fixpoint replace_char (a b : ascii) (s : string) : string :=
  match s with
  | EmptyString => EmptyString
  | String c s' =>
      String (if Ascii.eqb c a then b else c) (replace_char a b s')
  end.

(** [s.replace(a, "")] for a one-character [a] *)
Fixpoint remove_char (a : ascii) (s : string) : string :=
  match s with
  | EmptyString => EmptyString
  | String c s' =>
      if Ascii.eqb c a then remove_char a s' else String c (remove_char a s')
  end.

(** [needle in hay] *)
Fixpoint contains (needle hay : string) : bool :=
  String.prefix needle hay ||
  match hay with
  | EmptyString => false
  | String _ hay' => contains needle hay'
  end.

(** [s.endswith(suffix)] *)
Fixpoint endswith (suffix s : string) : bool :=
  String.eqb s suffix ||
  match s with
  | EmptyString => false
  | String _ s' => endswith suffix s'
  end.

(** Truth value of a [str]: the empty string is falsy. *)
Definition truthy (s : string) : bool := negb (String.eqb s "").

End Str.

(** ** The static device table *)

(** An entry of the table; [display_size] is its ["size"] key. *)
Record DeviceConfig := {
  simulator : string;
  display_size : string;
  required : bool;
  screenshots : list string
}.

(** [SCREENSHOT_DEVICES], in the insertion order of the dict literal. *)
Definition SCREENSHOT_DEVICES : list (string * DeviceConfig) :=
  [ ("iPhone 15 Pro Max",
     {| simulator := "iPhone 15 Pro Max"; display_size := "6.7-inch"; required := true;
        screenshots := ["home_screen"; "images_to_pdf_flow";
                        "pdf_merge_interface"; "interactive_signing";
                        "privacy_dashboard"] |});
    ("iPhone 15",
     {| simulator := "iPhone 15"; display_size := "6.1-inch"; required := true;
        screenshots := ["home_screen"; "tool_selection";
                        "processing_progress"; "export_options";
                        "settings_privacy"] |});
    ("iPad Pro 12.9-inch",
     {| simulator := "iPad Pro (12.9-inch) (6th generation)";
        display_size := "12.9-inch"; required := true;
        screenshots := ["split_view_tools"; "page_organizer_grid";
                        "workflow_automation"; "settings_landscape"] |}) ].

(** [SCREENSHOT_DEVICES[name]], [name in SCREENSHOT_DEVICES] *)
Fixpoint lookup_device (name : string) (table : list (string * DeviceConfig))
  : option DeviceConfig :=
  match table with
  | [] => None
  | (n, c) :: rest => if String.eqb n name then Some c else lookup_device name rest
  end.

(** The folder-safe name computed at the head of [organize_screenshots]. *)
Definition folder_name (cfg : DeviceConfig) : string :=
  Str.remove_char ")" (Str.remove_char "(" (Str.replace_char " " "_" (simulator cfg))).

(** The glob pattern ["*.png"] applied to a file name. *)
Definition is_png (name : string) : bool := Str.endswith ".png" name.

(** The test of the [if] in the loop of [organize_screenshots]. *)
Definition name_matches (device_name file_name : string) : bool :=
  Str.contains (Str.lower device_name) (Str.lower file_name).

(** ** The output directory and the manifest *)

Record ManifestEntry := {
  screenshot_count : nat;
  screenshot_names : list string
}.

Record Manifest := {
  generated_at : string;
  devices : gmap string ManifestEntry
}.

(** What a file holds: bytes the driver never looks at, or the JSON document
    written by [json.dump(manifest, f, indent=2)], kept as the value it
    encodes. *)
Inductive content :=
| Bytes (data : string)
| ManifestJson (m : Manifest).

Record OutputDir := {
  files : gmap string content;
  folders : gmap string (gmap string content)
}.

Definition manifest_file : string := "manifest.json".

(** ** External commands, exceptions and the trace *)

(** An [Exception] instance, by its text.  Only [Exception] and its
    subclasses are modelled: these are what [subprocess.run] and
    [json.loads] raise and what [except Exception] catches. *)
Inductive Exn := Exception (text : string).

(** The argument list given to [subprocess.run], with the variables the
    call adds to the inherited environment. *)
Record Cmd := {
  argv : list string;
  extra_env : list (string * string)
}.

(** [subprocess.CompletedProcess] *)
Record CompletedProcess := {
  returncode : Z;
  stdout : string;
  stderr : string
}.

Inductive Outcome :=
| Raises (e : Exn)
| Returns (p : CompletedProcess).

(** One entry of a device list in the output of
    [xcrun simctl list devices -j]. *)
Record SimDevice := {
  sim_name : string;
  isAvailable : bool;
  udid : string
}.

(** Every [print] of the script, by its arguments. *)
Inductive Msg :=
| MStarting
| MCleaning
| MBooting (device_name : string)
| MListFailed (err : string)
| MDeviceNotFound (device_name : string)
| MBootFailed (err : string)
| MSettingUp
| MInstalling
| MBuildFailed (err : string)
| MInstallFailed (err : string)
| MCapturing (simulator_name : string)
| MTestsWithIssues (err : string)
| MTestsOk
| MMoved (file_name folder : string)
| MManifestCreated (path : string)
| MUnknownDevice (device_name : string)
| MProcessing (device_name : string) (index total : nat)
| MCompleted (device_name : string)
| MFailed (device_name : string) (e : Exn)
| MGenerationCompleted
| MSummary (success_count total : nat)
| MSavedTo (path : string)
| MDevicesFailed (n : nat)
| MProjectNotFound.

Inductive Event :=
| Print (m : Msg)
| Run (c : Cmd)
| Sleep (seconds : nat).

(** What lies outside the script.  [respond] and [saved_images] see the
    trace so far, so the tools may answer differently from call to call. *)
Record Env := {
  (** the outcome of [subprocess.run] on a command *)
  respond : list Event → Cmd → Outcome;
  (** [json.loads] on the device listing, with the reads of
      ["devices"], ["name"], ["isAvailable"] and ["udid"]: the device lists
      by runtime, or the exception that the decoding or a read raises *)
  json_loads : string → Exn + list (string * list SimDevice);
  (** the files that a completed UI test run has saved at the top level of
      [SCREENSHOT_OUTPUT_DIR] *)
  saved_images : list Event → gmap string content;
  (** [time.strftime("%Y-%m-%d %H:%M:%S")] *)
  strftime : list Event → string;
  (** [Path.exists] outside the output directory *)
  path_exists : string → bool
}.

Record State := {
  out : OutputDir;
  trace : list Event
}.

Definition set_out (f : OutputDir → OutputDir) (st : State) : State :=
  {| out := f (out st); trace := trace st |}.

Definition add_event (e : Event) (st : State) : State :=
  {| out := out st; trace := trace st ++ [e] |}.

(** ** State and exceptions *)

Inductive Res (A : Type) :=
| Ok (a : A)
| Exc (e : Exn).
Arguments Ok {A} a.
Arguments Exc {A} e.

Definition M (A : Type) : Type := State → Res A * State.

#[global] Instance M_ret : MRet M := λ A a st, (Ok a, st).

#[global] Instance M_bind : MBind M := λ A B f m st,
  match m st with
  | (Ok a, st') => f a st'
  | (Exc e, st') => (Exc e, st')
  end.

Definition raise {A} (e : Exn) : M A := λ st, (Exc e, st).

(** [try: body  except Exception as e: handler e] *)
Definition try_except {A} (body : M A) (handler : Exn → M A) : M A := λ st,
  match body st with
  | (Ok a, st') => (Ok a, st')
  | (Exc e, st') => handler e st'
  end.

Definition emit (e : Event) : M unit := λ st, (Ok tt, add_event e st).

Definition print (m : Msg) : M unit := emit (Print m).

Definition sleep (seconds : nat) : M unit := emit (Sleep seconds).

Definition get_out : M OutputDir := λ st, (Ok (out st), st).

Definition modify_out (f : OutputDir → OutputDir) : M unit := λ st,
  (Ok tt, set_out f st).

Definition get_trace : M (list Event) := λ st, (Ok (trace st), st).

(** [for x in l: body x] *)
Fixpoint for_each {A} (l : list A) (body : A → M unit) : M unit :=
  match l with
  | [] => mret tt
  | x :: l' => body x ;; for_each l' body
  end.

(** A [for] loop that updates one local variable. *)
Fixpoint for_fold {A S} (l : list A) (s : S) (body : S → A → M S) : M S :=
  match l with
  | [] => mret s
  | x :: l' => s' ← body s x; for_fold l' s' body
  end.

(** ** Path operations on the output directory *)

(** [self.output_dir.glob("*.png")] *)
Definition glob_png (m : gmap string content) : list (string * content) :=
  filter (λ f, is_png f.1 = true) (map_to_list m).

(** [file.unlink()] for a top-level file *)
Definition unlink (name : string) (o : OutputDir) : OutputDir :=
  {| files := delete name (files o); folders := folders o |}.

(** [device_dir.mkdir(exist_ok=True)] *)
Definition mkdir (name : string) (o : OutputDir) : OutputDir :=
  match folders o !! name with
  | Some _ => o
  | None => {| files := files o; folders := <[name := ∅]> (folders o) |}
  end.

(** [screenshot_file.rename(device_dir / screenshot_file.name)] for a listed
    top-level file [name] holding [c]; a file of that name already in the
    folder is replaced. *)
Definition rename (name : string) (c : content) (folder : string)
    (o : OutputDir) : OutputDir :=
  {| files := delete name (files o);
     folders := <[folder := <[name := c]> (default ∅ (folders o !! folder))]>
                  (folders o) |}.

(** [with open(manifest_file, "w") as f: json.dump(manifest, f, indent=2)] *)
Definition write_manifest (m : Manifest) (o : OutputDir) : OutputDir :=
  {| files := <[manifest_file := ManifestJson m]> (files o);
     folders := folders o |}.

(** The test run's files appear at the top level, replacing files of the
    same name. *)
Definition save_images (new : gmap string content) (o : OutputDir) : OutputDir :=
  {| files := new ∪ files o; folders := folders o |}.

(** ** [ScreenshotGenerator] *)

(** [str(Path(a) / b)] *)
Definition path_join (a b : string) : string := a +:+ "/" +:+ b.

Definition booted_marker : string :=
  "Unable to boot device in current state: Booted".

(** The inner loop of the search in [boot_simulator]: the [udid] assigned
    before its [break], or [None] if the loop runs to its end. *)
Fixpoint scan_device_list (device_name : string) (device_list : list SimDevice)
  : option string :=
  match device_list with
  | [] => None
  | device :: rest =>
      if String.eqb (sim_name device) device_name && isAvailable device
      then Some (udid device)
      else scan_device_list device_name rest
  end.

(** Truth value of [device_uuid], which is [None] or a [str]. *)
Definition truthy_opt (v : option string) : bool :=
  match v with
  | None => false
  | Some s => Str.truthy s
  end.

(** The outer loop of the search, from the current value of [device_uuid]. *)
Fixpoint find_device (device_name : string)
    (runtimes : list (string * list SimDevice)) (device_uuid : option string)
  : option string :=
  match runtimes with
  | [] => device_uuid
  | (_, device_list) :: rest =>
      let device_uuid' :=
        match scan_device_list device_name device_list with
        | Some u => Some u
        | None => device_uuid
        end in
      if truthy_opt device_uuid' then device_uuid'
      else find_device device_name rest device_uuid'
  end.

(** The test after the boot command: [True] where the method gives up. *)
Definition boot_failed (result : CompletedProcess) : bool :=
  negb (returncode result =? 0) && negb (Str.contains booted_marker (stderr result)).

Section Driver.

Variable E : Env.

(** [self.project_path] and [self.scheme] *)
Variable project_path : string.
Variable scheme : string.

Definition output_dir : string :=
  path_join (path_join project_path "Screenshots") "AppStore".

Definition test_plan : string := "OneBoxUITests/ScreenshotTests.xctestplan".

Definition subprocess_run (c : Cmd) : M CompletedProcess := λ st,
  let st' := add_event (Run c) st in
  match respond E (trace st) c with
  | Raises e => (Exc e, st')
  | Returns p => (Ok p, st')
  end.

Definition plain (args : list string) : Cmd :=
  {| argv := args; extra_env := [] |}.

(** [self.output_dir.exists()] holds, the constructor having created the
    directory. *)
Definition clean_screenshots : M unit :=
  print MCleaning ;;
  o ← get_out;
  for_each (glob_png (files o)) (λ file, modify_out (unlink file.1)).

Definition boot_simulator (device_name : string) : M (option string) :=
  print (MBooting device_name) ;;
  result ← subprocess_run (plain ["xcrun"; "simctl"; "list"; "devices"; "-j"]);
  if negb (returncode result =? 0) then
    print (MListFailed (stderr result)) ;; mret None
  else
    match json_loads E (stdout result) with
    | inl e => raise e
    | inr runtimes =>
        let device_uuid := find_device device_name runtimes None in
        match device_uuid with
        | Some uuid =>
            if Str.truthy uuid then
              result ← subprocess_run (plain ["xcrun"; "simctl"; "boot"; uuid]);
              if boot_failed result then
                print (MBootFailed (stderr result)) ;; mret None
              else
                sleep 5 ;;
                subprocess_run (plain ["open"; "-a"; "Simulator"]) ;;
                sleep 2 ;;
                mret (Some uuid)
            else print (MDeviceNotFound device_name) ;; mret None
        | None => print (MDeviceNotFound device_name) ;; mret None
        end
    end.

Definition setup_commands (device_uuid : string) : list Cmd :=
  [ plain ["xcrun"; "simctl"; "erase"; device_uuid];
    plain ["xcrun"; "simctl"; "spawn"; device_uuid; "defaults"; "write";
           "com.apple.springboard"; "SBShowNonDefaultSystemApps"; "-bool"; "true"];
    plain ["xcrun"; "simctl"; "ui"; device_uuid; "appearance"; "light"];
    plain ["xcrun"; "simctl"; "spawn"; device_uuid; "defaults"; "write";
           "com.apple.springboard"; "SBAutoLockTime"; "0"] ].

Definition setup_simulator_environment (device_uuid : string) : M unit :=
  print MSettingUp ;;
  for_each (setup_commands device_uuid) (λ cmd, subprocess_run cmd ;; mret tt) ;;
  sleep 3.

Definition xcodebuild (device_uuid action : string) : Cmd :=
  plain ["xcodebuild"; "-project"; path_join project_path "OneBox.xcodeproj";
         "-scheme"; scheme; "-configuration"; "Debug"; "-sdk"; "iphonesimulator";
         "-destination"; "id=" +:+ device_uuid; action].

Definition install_app_to_simulator (device_uuid : string) : M bool :=
  print MInstalling ;;
  result ← subprocess_run (xcodebuild device_uuid "build");
  if negb (returncode result =? 0) then
    print (MBuildFailed (stderr result)) ;; mret false
  else
    result ← subprocess_run (xcodebuild device_uuid "install");
    if negb (returncode result =? 0) then
      print (MInstallFailed (stderr result)) ;; mret false
    else mret true.

Definition test_command (device_uuid : string) (device_config : DeviceConfig) : Cmd :=
  {| argv := ["xcodebuild"; "test"; "-project";
              path_join project_path "OneBox.xcodeproj"; "-scheme"; scheme;
              "-destination"; "id=" +:+ device_uuid; "-testPlan"; test_plan;
              "OTHER_SWIFT_FLAGS=-DSCREENSHOT_MODE"];
     extra_env := [("SCREENSHOT_MODE", "true");
                   ("SCREENSHOT_DEVICE", simulator device_config);
                   ("SCREENSHOT_OUTPUT_DIR", output_dir)] |}.

Definition run_screenshot_tests (device_uuid : string)
    (device_config : DeviceConfig) : M bool :=
  print (MCapturing (simulator device_config)) ;;
  result ← subprocess_run (test_command device_uuid device_config);
  t ← get_trace;
  modify_out (save_images (saved_images E t)) ;;
  (if negb (returncode result =? 0)
   then print (MTestsWithIssues (stderr result))
   else print MTestsOk) ;;
  mret true.

Definition organize_screenshots (device_config : DeviceConfig) : M unit :=
  let device_name := folder_name device_config in
  modify_out (mkdir device_name) ;;
  o ← get_out;
  for_each (glob_png (files o)) (λ screenshot_file,
    if name_matches device_name screenshot_file.1 then
      modify_out (rename screenshot_file.1 screenshot_file.2 device_name) ;;
      print (MMoved screenshot_file.1 device_name)
    else mret tt).

(** The entry of the manifest for one subdirectory. *)
Definition manifest_entry (dir : gmap string content) : ManifestEntry :=
  let screenshots := glob_png dir in
  {| screenshot_count := length screenshots;
     screenshot_names := map fst screenshots |}.

Definition create_screenshot_manifest : M unit :=
  t ← get_trace;
  o ← get_out;
  let manifest :=
    {| generated_at := strftime E t;
       devices :=
         foldl (λ acc device_dir, <[device_dir.1 := manifest_entry device_dir.2]> acc)
               ∅ (map_to_list (folders o)) |} in
  modify_out (write_manifest manifest) ;;
  print (MManifestCreated (path_join output_dir manifest_file)).

(** The devices the loop of [generate_all_screenshots] runs over, or [None]
    where the method returns before the loop. *)
Definition devices_to_process (specific_device : option string)
  : option (list (string * DeviceConfig)) :=
  match specific_device with
  | Some name =>
      if Str.truthy name then
        match lookup_device name SCREENSHOT_DEVICES with
        | Some cfg => Some [(name, cfg)]
        | None => None
        end
      else Some SCREENSHOT_DEVICES
  | None => Some SCREENSHOT_DEVICES
  end.

(** What the [try] block does for one device; it yields the new value of
    [success_count], the old one where it leaves through [continue]. *)
Definition process_device (success_count : nat) (device_name : string)
    (device_config : DeviceConfig) : M nat :=
  device_uuid ← boot_simulator device_name;
  match device_uuid with
  | Some uuid =>
      if Str.truthy uuid then
        setup_simulator_environment uuid ;;
        installed ← install_app_to_simulator uuid;
        if negb installed then mret success_count
        else
          captured ← run_screenshot_tests uuid device_config;
          if negb captured then mret success_count
          else
            organize_screenshots device_config ;;
            print (MCompleted device_name) ;;
            mret (success_count + 1)%nat
      else mret success_count
  | None => mret success_count
  end.

(** One turn of the loop over the devices. *)
Definition device_iteration (total_devices : nat) (success_count : nat)
    (device : string * DeviceConfig) : M nat :=
  print (MProcessing device.1 (success_count + 1) total_devices) ;;
  try_except
    (process_device success_count device.1 device.2)
    (λ e, print (MFailed device.1 e) ;; mret success_count).

Definition generate_all_screenshots (clean : bool)
    (specific_device : option string) : M bool :=
  print MStarting ;;
  (if clean then clean_screenshots else mret tt) ;;
  match devices_to_process specific_device with
  | None =>
      print (MUnknownDevice (default "" specific_device)) ;;
      mret false
  | Some devices =>
      let total_devices := length devices in
      success_count ← for_fold devices 0%nat (device_iteration total_devices);
      create_screenshot_manifest ;;
      print MGenerationCompleted ;;
      print (MSummary success_count total_devices) ;;
      print (MSavedTo output_dir) ;;
      (if (success_count <? total_devices)%nat
       then print (MDevicesFailed (total_devices - success_count))
       else mret tt) ;;
      mret (success_count =? total_devices)%nat
  end.

End Driver.

(** ** [main] *)

Record Args := {
  arg_clean : bool;
  arg_device : option string;
  arg_project_path : string
}.

Definition initial (o : OutputDir) : State := {| out := o; trace := [] |}.

(** The process exit status with the final state.  [o] is the output
    directory as the constructor of [ScreenshotGenerator] leaves it.  An
    exception that reaches the top level ends the process with status 1. *)
Definition main (E : Env) (args : Args) (o : OutputDir) : Z * State :=
  let project_path := arg_project_path args in
  if negb (path_exists E (path_join project_path "OneBox.xcodeproj")) then
    (1, add_event (Print MProjectNotFound) (initial o))
  else
    match generate_all_screenshots E project_path "OneBox"
            (arg_clean args) (arg_device args) (initial o) with
    | (Ok success, st) => (if success then 0 else 1, st)
    | (Exc _, st) => (1, st)
    end.

(** ** Concrete environments *)

Module Fixture.

Definition ok : CompletedProcess :=
  {| returncode := 0; stdout := "{}"; stderr := "" |}.

Definition exit_1 (err : string) : CompletedProcess :=
  {| returncode := 1; stdout := ""; stderr := err |}.

(** A simulator for every key of the device table. *)
Definition simulators : list (string * list SimDevice) :=
  [ ("com.apple.CoreSimulator.SimRuntime.iOS-17-0",
     [ {| sim_name := "iPhone 15 Pro Max"; isAvailable := true; udid := "A1" |};
       {| sim_name := "iPhone 15"; isAvailable := true; udid := "B2" |};
       {| sim_name := "iPad Pro 12.9-inch"; isAvailable := true; udid := "C3" |} ]) ].

(** The value of [SCREENSHOT_DEVICE] in the command that was run last. *)
Definition capturing (t : list Event) : option string :=
  match last t with
  | Some (Run c) =>
      match list_find (λ kv, kv.1 = "SCREENSHOT_DEVICE") (extra_env c) with
      | Some (_, kv) => Some kv.2
      | None => None
      end
  | _ => None
  end.

(** Every tool succeeds; the UI tests save what [saved] says. *)
Definition env (saved : list Event → gmap string content) : Env :=
  {| respond := λ _ _, Returns ok;
     json_loads := λ _, inr simulators;
     saved_images := saved;
     strftime := λ _, "2024-05-01 12:00:00";
     path_exists := λ _, true |}.

(** The UI tests save one image named for the device they run on. *)
Definition well_named (t : list Event) : gmap string content :=
  match capturing t with
  | Some "iPhone 15 Pro Max" => {[ "iPhone_15_Pro_Max_home_screen.png" := Bytes "a" ]}
  | Some "iPhone 15" => {[ "iPhone_15_home_screen.png" := Bytes "b" ]}
  | Some _ => {[ "iPad_Pro_12.9-inch_6th_generation_split_view_tools.png" := Bytes "c" ]}
  | None => ∅
  end.


(** No simulator is installed. *)
Definition bare : Env :=
  {| respond := λ _ _, Returns ok;
     json_loads := λ _, inr [];
     saved_images := λ _, ∅;
     strftime := λ _, "2024-05-01 12:00:00";
     path_exists := λ _, true |}.


(** The simulators are installed and already booted. *)
Definition booted : Env :=
  {| respond := λ _ c,
       match argv c with
       | "xcrun" :: "simctl" :: "boot" :: _ =>
           Returns (exit_1 "Unable to boot device in current state: Booted")
       | _ => Returns ok
       end;
     json_loads := λ _, inr simulators;
     saved_images := λ _, ∅;
     strftime := λ _, "2024-05-01 12:00:00";
     path_exists := λ _, true |}.

Definition empty_dir : OutputDir := {| files := ∅; folders := ∅ |}.

(** An output directory left by an earlier run. *)
Definition used_dir : OutputDir :=
  {| files := {[ "stray.png" := Bytes "s"; "notes.txt" := Bytes "n" ]};
     folders := {[ "iPhone_15" := {[ "iPhone_15_home_screen.png" := Bytes "old";
                                     "README" := Bytes "r" ]} ]} |}.

Definition args (clean : bool) (device : option string) : Args :=
  {| arg_clean := clean; arg_device := device; arg_project_path := "." |}.

End Fixture.

(** The commands of a trace, in the order they were run. *)
Definition commands (t : list Event) : list Cmd :=
  omap (λ e, match e with Run c => Some c | _ => None end) t.

(** The device a [MProcessing] message announces. *)
Definition processing_name (e : Event) : option string :=
  match e with
  | Print (MProcessing n _ _) => Some n
  | _ => None
  end.

(** * Reasoning about the driver *)

(** ** Relations that every step of a computation respects *)

Section Stable.

Context (R : relation State) `{!PreOrder R}.

(** [m] takes every state to an [R]-related one, however it ends. *)
Definition stable {A} (m : M A) : Prop := ∀ st, R st (m st).2.

Lemma stable_ret {A} (a : A) : stable (mret a).
Proof. intros st. simpl. reflexivity. Qed.

Lemma stable_raise {A} (e : Exn) : stable (@raise A e).
Proof. intros st. simpl. reflexivity. Qed.

Lemma stable_get_out : stable get_out.
Proof. intros st. simpl. reflexivity. Qed.

Lemma stable_get_trace : stable get_trace.
Proof. intros st. simpl. reflexivity. Qed.

Lemma stable_bind {A B} (m : M A) (f : A → M B) :
  stable m → (∀ a, stable (f a)) → stable (m ≫= f).
Proof.
  intros Hm Hf st. unfold mbind, M_bind.
  specialize (Hm st). destruct (m st) as [[a|e] st1]; simpl in *.
  - etransitivity; [exact Hm | apply Hf].
  - exact Hm.
Qed.

Lemma stable_try_except {A} (body : M A) (handler : Exn → M A) :
  stable body → (∀ e, stable (handler e)) → stable (try_except body handler).
Proof.
  intros Hm Hh st. unfold try_except.
  specialize (Hm st). destruct (body st) as [[a|e] st1]; simpl in *.
  - exact Hm.
  - etransitivity; [exact Hm | apply Hh].
Qed.

Lemma stable_for_each {A} (l : list A) (body : A → M unit) :
  (∀ x, x ∈ l → stable (body x)) → stable (for_each l body).
Proof.
  induction l as [|x l IH]; intros Hb; simpl.
  - apply stable_ret.
  - apply stable_bind.
    + apply Hb. left.
    + intros _. apply IH. intros y Hy. apply Hb. by right.
Qed.

Lemma stable_for_fold {A S} (l : list A) (s : S) (body : S → A → M S) :
  (∀ s x, x ∈ l → stable (body s x)) → stable (for_fold l s body).
Proof.
  revert s. induction l as [|x l IH]; intros s Hb; simpl.
  - apply stable_ret.
  - apply stable_bind.
    + apply Hb. left.
    + intros s'. apply IH. intros s'' y Hy. apply Hb. by right.
Qed.

Lemma stable_emit (e : Event) :
  (∀ st, R st (add_event e st)) → stable (emit e).
Proof. intros H st. apply H. Qed.

Lemma stable_modify_out (f : OutputDir → OutputDir) :
  (∀ st, R st (set_out f st)) → stable (modify_out f).
Proof. intros H st. apply H. Qed.

Lemma stable_subprocess_run (E : Env) (c : Cmd) :
  (∀ st, R st (add_event (Run c) st)) → stable (subprocess_run E c).
Proof.
  intros H st. unfold subprocess_run.
  destruct (respond E (trace st) c); simpl; apply H.
Qed.

End Stable.

(** Breaks a [stable] goal down to the events and the path operations of
    the computation. *)
Ltac stable_steps :=
  repeat first
    [ apply stable_ret; solve [typeclasses eauto]
    | apply stable_raise; solve [typeclasses eauto]
    | apply stable_get_out; solve [typeclasses eauto]
    | apply stable_get_trace; solve [typeclasses eauto]
    | apply stable_bind; [typeclasses eauto | | intros ?]
    | apply stable_try_except; [typeclasses eauto | | intros ?]
    | apply stable_for_each; [typeclasses eauto | intros ? ?]
    | apply stable_for_fold; [typeclasses eauto | intros ? ? ?]
    | apply stable_subprocess_run; intros ?
    | apply stable_emit; intros ?
    | apply stable_modify_out; intros ?
    | match goal with
      | |- stable _ (let _ := _ in _) => cbv zeta
      | |- stable _ (if ?b then _ else _) => destruct b eqn:?
      | |- stable _ (match ?x with _ => _ end) => destruct x eqn:?
      end ].

(** *** The events a computation adds to the trace *)

Definition emits (P : Event → Prop) : relation State := λ st st',
  ∃ new, trace st' = trace st ++ new ∧ Forall P new.

#[global] Instance emits_preorder P : PreOrder (emits P).
Proof.
  split.
  - intros st. exists []. by rewrite app_nil_r.
  - intros st1 st2 st3 (n1 & H1 & F1) (n2 & H2 & F2).
    exists (n1 ++ n2). rewrite H2, H1, app_assoc. split; [done|].
    by apply Forall_app.
Qed.

Lemma emits_add_event (P : Event → Prop) e st : P e → emits P st (add_event e st).
Proof. intros He. exists [e]. split; [done|]. by constructor. Qed.

Lemma emits_set_out (P : Event → Prop) f st : emits P st (set_out f st).
Proof. exists []. simpl. by rewrite app_nil_r. Qed.

Lemma emits_weaken (P Q : Event → Prop) st st' :
  (∀ e, P e → Q e) → emits P st st' → emits Q st st'.
Proof.
  intros HPQ (new & H & F). exists new. split; [done|].
  eapply Forall_impl; eauto.
Qed.

(** *** Leaving the output directory as it is *)

Definition keeps_out : relation State := λ st st', out st' = out st.

#[global] Instance keeps_out_preorder : PreOrder keeps_out.
Proof.
  split.
  - by intros st.
  - intros st1 st2 st3 H1 H2. unfold keeps_out in *. congruence.
Qed.


(** ** What each method prints and runs *)

(** The value a command gives to [SCREENSHOT_DEVICE], if it sets it. *)
Definition sets_screenshot_device (c : Cmd) (s : string) : Prop :=
  In ("SCREENSHOT_DEVICE", s) (extra_env c).

(** The events of the [try] block for the device [device_name]. *)
Definition device_event (device_name : string) (cfg : DeviceConfig)
    (e : Event) : Prop :=
  match e with
  | Print (MBooting n) | Print (MDeviceNotFound n) | Print (MCompleted n) =>
      n = device_name
  | Print (MCapturing s) => s = simulator cfg
  | Print (MMoved f d) =>
      d = folder_name cfg ∧ is_png f = true ∧ name_matches d f = true
  | Print (MListFailed _) | Print (MBootFailed _) | Print MSettingUp
  | Print MInstalling | Print (MBuildFailed _) | Print (MInstallFailed _)
  | Print (MTestsWithIssues _) | Print MTestsOk => True
  | Print _ => False
  | Run c => ∀ s, sets_screenshot_device c s → s = simulator cfg
  | Sleep _ => True
  end.

(** The same without [MCompleted]: the events before the device is
    counted. *)
Definition step_event (device_name : string) (cfg : DeviceConfig)
    (e : Event) : Prop :=
  device_event device_name cfg e ∧ ∀ n, e ≠ Print (MCompleted n).

Lemma elem_of_glob_png (m : gmap string content) (x : string * content) :
  x ∈ glob_png m ↔ is_png x.1 = true ∧ m !! x.1 = Some x.2.
Proof.
  unfold glob_png. rewrite list_elem_of_filter.
  destruct x as [n c]. by rewrite elem_of_map_to_list.
Qed.

Ltac emits_side :=
  first
    [ apply emits_set_out
    | apply emits_add_event; repeat split; simpl; unfold sets_screenshot_device;
      simpl; first [done | tauto | intros; intuition congruence] ].

Section DriverEvents.

Variable E : Env.
Variables project_path scheme : string.

Lemma boot_simulator_emits n cfg :
  stable (emits (step_event n cfg)) (boot_simulator E n).
Proof. unfold boot_simulator, print, sleep. stable_steps; emits_side. Qed.

Lemma setup_simulator_environment_emits n cfg uuid :
  stable (emits (step_event n cfg)) (setup_simulator_environment E uuid).
Proof.
  unfold setup_simulator_environment, print, sleep. stable_steps; emits_side.
Qed.

Lemma install_app_to_simulator_emits n cfg uuid :
  stable (emits (step_event n cfg))
         (install_app_to_simulator E project_path scheme uuid).
Proof. unfold install_app_to_simulator, print. stable_steps; emits_side. Qed.

Lemma run_screenshot_tests_emits n cfg uuid :
  stable (emits (step_event n cfg))
         (run_screenshot_tests E project_path scheme uuid cfg).
Proof.
  unfold run_screenshot_tests, print. stable_steps; emits_side.
Qed.

Lemma organize_screenshots_emits n cfg :
  stable (emits (step_event n cfg)) (organize_screenshots cfg).
Proof.
  unfold organize_screenshots, print. stable_steps; try emits_side.
  match goal with H : _ ∈ glob_png _ |- _ =>
    apply elem_of_glob_png in H; destruct H as [Hpng _] end.
  apply emits_add_event. by repeat split.
Qed.

End DriverEvents.

(** ** Loops over a directory listing *)

Lemma for_each_steps {A} (l : list A) (body : A → M unit) (g : A → State → State) :
  (∀ x st, body x st = (Ok tt, g x st)) →
  ∀ st, for_each l body st = (Ok tt, foldl (λ s x, g x s) st l).
Proof.
  intros Hb. induction l as [|x l IH]; intros st; simpl; [done|].
  unfold mbind, M_bind. by rewrite Hb, IH.
Qed.

Lemma foldl_out {A} (step : OutputDir → A → OutputDir) (g : A → State → State)
    (l : list A) :
  (∀ x st, out (g x st) = step (out st) x) →
  ∀ st, out (foldl (λ s x, g x s) st l) = foldl step (out st) l.
Proof.
  intros Hg. induction l as [|x l IH]; intros st; simpl; [done|].
  by rewrite IH, Hg.
Qed.

Lemma foldl_trace_fixed {A} (g : A → State → State) (l : list A) :
  (∀ x st, trace (g x st) = trace st) →
  ∀ st, trace (foldl (λ s x, g x s) st l) = trace st.
Proof.
  intros Hg. induction l as [|x l IH]; intros st; simpl; [done|].
  by rewrite IH, Hg.
Qed.

Lemma lookup_foldl_insert {V W} (f : V → W) (l : list (string * V))
    (acc : gmap string W) (k : string) :
  NoDup l.*1 →
  foldl (λ acc x, <[x.1 := f x.2]> acc) acc l !! k =
    match list_find (λ x, x.1 = k) l with
    | Some (_, x) => Some (f x.2)
    | None => acc !! k
    end.
Proof.
  revert acc. induction l as [|[n v] l IH]; intros acc Hnd; simpl; [done|].
  apply NoDup_cons in Hnd as [Hn Hnd]. rewrite IH by done.
  destruct (decide (n = k)) as [->|Hne]; simpl.
  - destruct (list_find _ l) as [[i [k' v']]|] eqn:Hfind; simpl.
    + apply list_find_Some in Hfind as (Hl & Hk & _). simpl in Hk. subst k'.
      exfalso. apply Hn. apply list_elem_of_fmap. exists (k, v'). split; [done|].
      eapply list_elem_of_lookup_2; eauto.
    + by rewrite lookup_insert_eq.
  - destruct (list_find _ l) as [[i [k' v']]|] eqn:Hfind; simpl; [done|].
    by rewrite lookup_insert_ne.
Qed.

Lemma foldl_insert_map_to_list {V W} (f : V → W) (m : gmap string V) :
  foldl (λ acc x, <[x.1 := f x.2]> acc) ∅ (map_to_list m) = f <$> m.
Proof.
  apply map_eq. intros k.
  rewrite lookup_foldl_insert by apply NoDup_fst_map_to_list.
  rewrite lookup_fmap.
  destruct (list_find _ _) as [[i [k' v]]|] eqn:Hfind; simpl.
  - apply list_find_Some in Hfind as (Hl & Hk & _). simpl in Hk. subst k'.
    apply list_elem_of_lookup_2, elem_of_map_to_list in Hl. by rewrite Hl.
  - rewrite lookup_empty. destruct (m !! k) as [v|] eqn:Hk; [|done].
    apply elem_of_map_to_list in Hk.
    eapply list_find_None, Forall_forall in Hfind; [|exact Hk]. done.
Qed.

Lemma lookup_foldl_unlink (l : list (string * content)) (o : OutputDir) f :
  files (foldl (λ o x, unlink x.1 o) o l) !! f =
    if decide (f ∈ l.*1) then None else files o !! f.
Proof.
  revert o. induction l as [|[n c] l IH]; intros o; simpl.
  - done.
  - rewrite IH. simpl. destruct (decide (f ∈ l.*1)) as [Hin|Hin].
    + rewrite decide_True; [done|]. by right.
    + destruct (decide (n = f)) as [->|Hne].
      * rewrite decide_True by left. apply lookup_delete_eq.
      * rewrite decide_False, lookup_delete_ne; [done..|].
        intros [?|?]%elem_of_cons; [congruence|done].
Qed.

Lemma folders_foldl_unlink (l : list (string * content)) (o : OutputDir) :
  folders (foldl (λ o x, unlink x.1 o) o l) = folders o.
Proof. revert o. induction l as [|x l IH]; intros o; simpl; [done|]. by rewrite IH. Qed.

Lemma elem_of_glob_png_names (m : gmap string content) (f : string) :
  f ∈ (glob_png m).*1 ↔ is_png f = true ∧ is_Some (m !! f).
Proof.
  rewrite list_elem_of_fmap. split.
  - intros ([n c] & -> & [Hp Hl]%elem_of_glob_png). simpl in *. eauto.
  - intros [Hp [c Hc]]. exists (f, c). split; [done|].
    by apply elem_of_glob_png.
Qed.

(** ** Clean *)

(** The output directory without its top-level [*.png] files. *)
Definition cleaned (o : OutputDir) : OutputDir :=
  {| files := filter (λ x, is_png x.1 = false) (files o);
     folders := folders o |}.

Lemma clean_screenshots_run (st : State) :
  clean_screenshots st =
    (Ok tt, {| out := cleaned (out st); trace := trace st ++ [Print MCleaning] |}).
Proof.
  unfold clean_screenshots, print, emit, get_out, modify_out, mbind, M_bind.
  simpl.
  rewrite (for_each_steps _ _ (λ x, set_out (unlink x.1))) by done.
  f_equal.
  set (l := glob_png (files (out st))).
  set (st1 := add_event (Print MCleaning) st).
  assert (Ho : out (foldl (λ s x, set_out (unlink x.1) s) st1 l)
               = foldl (λ o x, unlink x.1 o) (out st) l)
    by (by rewrite (foldl_out (λ o x, unlink x.1 o))).
  assert (Ht : trace (foldl (λ s x, set_out (unlink x.1) s) st1 l) = trace st1)
    by (by rewrite foldl_trace_fixed).
  destruct (foldl _ st1 l) as [o' t']. simpl in *. subst o' t'.
  f_equal. unfold cleaned.
  destruct (foldl _ (out st) l) as [fs ds] eqn:Hfold.
  assert (Hf : ∀ f, fs !! f = if decide (f ∈ l.*1) then None else files (out st) !! f).
  { intros f. pose proof (lookup_foldl_unlink l (out st) f) as H.
    by rewrite Hfold in H. }
  assert (Hd : ds = folders (out st)).
  { pose proof (folders_foldl_unlink l (out st)) as H. by rewrite Hfold in H. }
  subst ds. f_equal. apply map_eq. intros f. rewrite Hf, map_lookup_filter.
  unfold l. destruct (decide _) as [Hin|Hin].
  - apply elem_of_glob_png_names in Hin as [Hp [c Hc]]. rewrite Hc. simpl.
    rewrite option_guard_False; [done|]. simpl. congruence.
  - destruct (files (out st) !! f) as [c|] eqn:Hc; [|done]. simpl.
    rewrite option_guard_True; [done|]. simpl.
    destruct (is_png f) eqn:Hp; [|done]. exfalso. apply Hin.
    apply elem_of_glob_png_names. eauto.
Qed.


(** ** Manifest *)





(** The manifest of the output directory as it stands in [st]. *)
Definition manifest_of (E : Env) (st : State) : Manifest :=
  {| generated_at := strftime E (trace st);
     devices := manifest_entry <$> folders (out st) |}.

Lemma create_screenshot_manifest_run (E : Env) (project_path : string) (st : State) :
  create_screenshot_manifest E project_path st =
    (Ok tt,
     {| out := write_manifest (manifest_of E st) (out st);
        trace := trace st ++
          [Print (MManifestCreated (path_join (output_dir project_path) manifest_file))] |}).
Proof.
  unfold create_screenshot_manifest, print, emit, get_out, get_trace,
    modify_out, mbind, M_bind. simpl.
  unfold manifest_of, add_event, set_out. simpl.
  by rewrite (foldl_insert_map_to_list manifest_entry).
Qed.

(** ** Organize *)

Section Organize.

Variable d : string.

(** One turn of the loop of [organize_screenshots] on the directory. *)
Definition organize_step (o : OutputDir) (x : string * content) : OutputDir :=
  if name_matches d x.1 then rename x.1 x.2 d o else o.

(** The files the loop moves: the top-level [*.png] files matching [d]. *)
Definition moved (f : string) : bool := is_png f && name_matches d f.

Lemma files_foldl_organize (l : list (string * content)) (o : OutputDir) f :
  files (foldl organize_step o l) !! f =
    if decide (f ∈ l.*1 ∧ name_matches d f = true) then None else files o !! f.
Proof.
  revert o. induction l as [|[n c] l IH]; intros o; simpl.
  - done.
  - rewrite IH. unfold organize_step. simpl.
    destruct (decide (f ∈ l.*1 ∧ _)) as [[Hin Hm]|Hin].
    + rewrite decide_True; [done|]. split; [by right | done].
    + destruct (decide (n = f)) as [->|Hne].
      * destruct (name_matches d f) eqn:Hm; simpl.
        -- rewrite decide_True by (split; [left | done]). apply lookup_delete_eq.
        -- rewrite decide_False; [done|]. intros [_ ?]. congruence.
      * rewrite decide_False.
        -- destruct (name_matches d n); simpl; [|done]. by rewrite lookup_delete_ne.
        -- intros [[?|?]%elem_of_cons ?]; [congruence | tauto].
Qed.

Lemma other_folders_foldl_organize (l : list (string * content)) (o : OutputDir) d' :
  d' ≠ d → folders (foldl organize_step o l) !! d' = folders o !! d'.
Proof.
  intros Hne. revert o. induction l as [|[n c] l IH]; intros o; simpl; [done|].
  rewrite IH. unfold organize_step. simpl.
  destruct (name_matches d n); simpl; [|done]. by rewrite lookup_insert_ne.
Qed.

Lemma folder_foldl_organize (m : gmap string content)
    (l : list (string * content)) (o : OutputDir) f :
  (∀ x, x ∈ l → m !! x.1 = Some x.2) →
  is_Some (folders o !! d) →
  ∃ dir, folders (foldl organize_step o l) !! d = Some dir ∧
    dir !! f = if decide (f ∈ l.*1 ∧ name_matches d f = true) then m !! f
               else default ∅ (folders o !! d) !! f.
Proof.
  revert o. induction l as [|[n c] l IH]; intros o Hl [dir0 Hd]; simpl.
  - exists dir0. split; [done|]. by rewrite Hd.
  - destruct (IH (organize_step o (n, c))) as (dir & Hdir & Hf).
    { intros x Hx. apply Hl. by right. }
    { unfold organize_step. simpl. destruct (name_matches d n); simpl; [|eauto].
      rewrite lookup_insert_eq. eauto. }
    exists dir. split; [done|]. rewrite Hf.
    destruct (decide (f ∈ l.*1 ∧ _)) as [[Hin Hm]|Hin].
    + rewrite decide_True; [done|]. split; [by right | done].
    + unfold organize_step. simpl. destruct (decide (n = f)) as [->|Hne].
      * destruct (name_matches d f) eqn:Hm; simpl.
        -- rewrite decide_True by (split; [left | done]).
           rewrite lookup_insert_eq. simpl. rewrite lookup_insert_eq.
           symmetry. apply (Hl (f, c)). left.
        -- rewrite decide_False; [done|]. intros [_ ?]. congruence.
      * rewrite decide_False.
        -- destruct (name_matches d n); simpl; [|done].
           rewrite lookup_insert_eq. simpl. by rewrite lookup_insert_ne.
        -- intros [[?|?]%elem_of_cons ?]; [congruence | tauto].
Qed.

End Organize.

(** What [organize_screenshots] leaves: the matching top-level images are
    gone from the top level and are in the device folder, with their
    contents; nothing else has changed. *)
Lemma organize_screenshots_run (cfg : DeviceConfig) (st : State) :
  let d := folder_name cfg in
  ∃ st', organize_screenshots cfg st = (Ok tt, st') ∧
    (∀ f, files (out st') !! f =
            if moved d f then None else files (out st) !! f) ∧
    (∃ dir, folders (out st') !! d = Some dir ∧
       ∀ f, dir !! f =
              if moved d f && bool_decide (is_Some (files (out st) !! f))
              then files (out st) !! f
              else default ∅ (folders (out st) !! d) !! f) ∧
    (∀ d', d' ≠ d → folders (out st') !! d' = folders (out st) !! d').
Proof.
  intros d. unfold organize_screenshots. fold d.
  unfold print, emit, get_out, modify_out, mbind, M_bind. simpl.
  set (st1 := set_out (mkdir d) st).
  set (l := glob_png (files (out st1))).
  set (g := λ (x : string * content) (s : State),
         if name_matches d x.1
         then add_event (Print (MMoved x.1 d)) (set_out (rename x.1 x.2 d) s)
         else s).
  rewrite (for_each_steps _ _ g); cycle 1.
  { intros x s. unfold g. by destruct (name_matches d x.1). }
  eexists. split; [reflexivity|].
  change (glob_png (files (mkdir d (out st)))) with l.
  assert (Ho : out (foldl (λ s x, g x s) st1 l) = foldl (organize_step d) (out st1) l).
  { apply (foldl_out (organize_step d)). intros x s. unfold g, organize_step.
    by destruct (name_matches d x.1). }
  rewrite Ho.
  assert (Hfiles : files (out st1) = files (out st)).
  { unfold st1, set_out, mkdir. simpl. by destruct (folders (out st) !! d). }
  assert (Hfolder : default ∅ (folders (out st1) !! d) = default ∅ (folders (out st) !! d)
                    ∧ is_Some (folders (out st1) !! d)).
  { unfold st1, set_out, mkdir. simpl.
    destruct (folders (out st) !! d) as [dir|] eqn:Hd; simpl.
    - rewrite Hd. eauto.
    - rewrite lookup_insert_eq. eauto. }
  assert (Hothers : ∀ d', d' ≠ d → folders (out st1) !! d' = folders (out st) !! d').
  { intros d' Hne. unfold st1, set_out, mkdir. simpl.
    destruct (folders (out st) !! d); simpl; [done|]. by rewrite lookup_insert_ne. }
  assert (Hl : ∀ f, f ∈ l.*1 ∧ name_matches d f = true ↔
                    moved d f = true ∧ is_Some (files (out st) !! f)).
  { intros f. unfold l, moved. rewrite elem_of_glob_png_names, Hfiles.
    rewrite andb_true_iff. tauto. }
  split; [|split].
  - intros f. rewrite files_foldl_organize, Hfiles.
    destruct (decide _) as [H|H].
    + apply Hl in H as [-> _]. done.
    + destruct (moved d f) eqn:Hm; [|done].
      destruct (files (out st) !! f) eqn:Hf; [|done].
      exfalso. apply H, Hl. eauto.
  - destruct Hfolder as [Hdef Hsome].
    destruct (folder_foldl_organize d (files (out st)) l (out st1) "" ) as (dir & Hdir & _);
      [|done|].
    { intros x [_ Hx]%elem_of_glob_png. by rewrite <- Hfiles. }
    exists dir. split; [done|]. intros f.
    destruct (folder_foldl_organize d (files (out st)) l (out st1) f) as (dir' & Hdir' & Hf);
      [|done|].
    { intros x [_ Hx]%elem_of_glob_png. by rewrite <- Hfiles. }
    assert (dir' = dir) by congruence. subst dir'.
    rewrite Hf, Hdef. destruct (decide _) as [H|H].
    + apply Hl in H as [-> Hs]. by rewrite bool_decide_eq_true_2.
    + destruct (moved d f) eqn:Hm; [|done]. simpl.
      destruct (bool_decide _) eqn:Hb; [|done].
      apply bool_decide_eq_true_1 in Hb. exfalso. apply H, Hl. eauto.
  - intros d' Hne. rewrite other_folders_foldl_organize by done. by apply Hothers.
Qed.

(** ** Results of a computation *)

(** [Q] relates every initial state to the result and the final state. *)
Definition spec {A} (m : M A) (Q : State → Res A → State → Prop) : Prop :=
  ∀ st, Q st (m st).1 (m st).2.

(** [Q] still holds when a step related by [R] is put in front, and holds
    of an exception that such a step raises. *)
Definition absorbs (R : relation State) {A}
    (Q : State → Res A → State → Prop) : Prop :=
  (∀ st st1 r st', R st st1 → Q st1 r st' → Q st r st') ∧
  (∀ st st1 e, R st st1 → Q st (Exc e) st1).

Lemma bind_run {A B} (m : M A) (f : A → M B) (st : State) :
  (m ≫= f) st =
    match m st with
    | (Ok a, st') => f a st'
    | (Exc e, st') => (Exc e, st')
    end.
Proof. done. Qed.

Lemma spec_bind_stable {A B} (R : relation State)
    (Q : State → Res B → State → Prop) (m : M A) (f : A → M B) :
  absorbs R Q → stable R m → (∀ a, spec (f a) Q) → spec (m ≫= f) Q.
Proof.
  intros [Hstep Hexc] Hm Hf st. rewrite bind_run.
  specialize (Hm st). destruct (m st) as [[a|e] st1]; simpl in *.
  - eapply Hstep; [exact Hm | apply Hf].
  - by apply Hexc.
Qed.


(** ** One device *)

Definition completed (t : list Event) (device_name : string) : Prop :=
  In (Print (MCompleted device_name)) t.

Section OneDevice.

Variable E : Env.
Variables project_path scheme : string.

(** The [try] block either counts the device, and then its last event is
    the [MCompleted] message, or leaves the count and prints no such
    message. *)
Definition try_block_result (c : nat) (n : string) (cfg : DeviceConfig)
    (st : State) (r : Res nat) (st' : State) : Prop :=
  ∃ new, trace st' = trace st ++ new ∧
    match r with
    | Ok c' =>
        (c' = c ∧ Forall (step_event n cfg) new) ∨
        (c' = S c ∧ ∃ pre, new = pre ++ [Print (MCompleted n)]
                           ∧ Forall (step_event n cfg) pre)
    | Exc _ => Forall (step_event n cfg) new
    end.

Lemma try_block_result_absorbs c n cfg :
  absorbs (emits (step_event n cfg)) (try_block_result c n cfg).
Proof.
  split.
  - intros st st1 r st' (n1 & H1 & F1) (n2 & H2 & F2).
    exists (n1 ++ n2). rewrite H2, H1, app_assoc. split; [done|].
    destruct r as [c'|e].
    + destruct F2 as [[-> F2]|[-> (pre & -> & F2)]].
      * left. split; [done|]. by apply Forall_app.
      * right. split; [done|]. exists (n1 ++ pre).
        rewrite app_assoc. split; [done|]. by apply Forall_app.
    + by apply Forall_app.
  - intros st st1 e (n1 & H1 & F1). by exists n1.
Qed.

Lemma try_block_result_here c n cfg st (c' : nat) :
  c' = c → try_block_result c n cfg st (Ok c') st.
Proof.
  intros ->. exists []. rewrite app_nil_r. split; [done|]. left. by split.
Qed.

Lemma process_device_result c n cfg :
  spec (process_device E project_path scheme c n cfg) (try_block_result c n cfg).
Proof.
  pose proof (try_block_result_absorbs c n cfg) as Habs.
  unfold process_device.
  eapply spec_bind_stable; [exact Habs | apply boot_simulator_emits |].
  intros [uuid|]; [|intros st; by apply try_block_result_here].
  destruct (Str.truthy uuid); [|intros st; by apply try_block_result_here].
  eapply spec_bind_stable;
    [exact Habs | apply setup_simulator_environment_emits | intros _].
  eapply spec_bind_stable;
    [exact Habs | apply install_app_to_simulator_emits | intros installed].
  destruct installed; simpl; [|intros st; by apply try_block_result_here].
  eapply spec_bind_stable;
    [exact Habs | apply run_screenshot_tests_emits | intros captured].
  destruct captured; simpl; [|intros st; by apply try_block_result_here].
  eapply spec_bind_stable;
    [exact Habs | apply organize_screenshots_emits | intros _].
  intros st. simpl. exists [Print (MCompleted n)]. split; [done|].
  right. split; [lia|]. exists []. by split.
Qed.



End OneDevice.

(** ** The whole run *)

Lemma SCREENSHOT_DEVICES_NoDup : NoDup SCREENSHOT_DEVICES.*1.
Proof. apply (bool_decide_unpack _). by vm_compute. Qed.

Lemma lookup_device_Some name cfg table :
  lookup_device name table = Some cfg → (name, cfg) ∈ table.
Proof.
  induction table as [|[n c] table IH]; simpl; [done|].
  destruct (String.eqb n name) eqn:Hn.
  - apply String.eqb_eq in Hn. intros [= <-]. subst n. left.
  - intros H. right. by apply IH.
Qed.

Lemma devices_to_process_NoDup sd devs :
  devices_to_process sd = Some devs → NoDup devs.*1.
Proof.
  unfold devices_to_process. intros H.
  assert (Hall : devs = SCREENSHOT_DEVICES → NoDup devs.*1)
    by (intros ->; apply SCREENSHOT_DEVICES_NoDup).
  destruct sd as [name|]; [|injection H as <-; by apply Hall].
  destruct (Str.truthy name); [|injection H as <-; by apply Hall].
  destruct (lookup_device name SCREENSHOT_DEVICES); [|done].
  injection H as <-. simpl. apply NoDup_singleton.
Qed.

Section Run.

Variable E : Env.
Variables project_path scheme : string.

(** The state when the loop over the devices starts. *)
Definition prologue (clean : bool) (st : State) : State :=
  if clean
  then {| out := cleaned (out st);
          trace := trace st ++ [Print MStarting; Print MCleaning] |}
  else add_event (Print MStarting) st.

(** The messages after the loop. *)
Definition epilogue (success_count total_devices : nat) : list Event :=
  [Print (MManifestCreated (path_join (output_dir project_path) manifest_file));
   Print MGenerationCompleted;
   Print (MSummary success_count total_devices);
   Print (MSavedTo (output_dir project_path))] ++
  (if (success_count <? total_devices)%nat
   then [Print (MDevicesFailed (total_devices - success_count))]
   else []).

Lemma print_run (m : Msg) (st : State) :
  print m st = (Ok tt, add_event (Print m) st).
Proof. done. Qed.

Lemma prologue_run (clean : bool) (st : State) :
  (if clean then clean_screenshots else @mret M _ _ tt) (add_event (Print MStarting) st)
    = (Ok tt, prologue clean st).
Proof.
  destruct clean; [|done]. rewrite clean_screenshots_run.
  unfold prologue, add_event. simpl. by rewrite <- !app_assoc.
Qed.

Lemma generate_all_screenshots_unknown clean sd st :
  devices_to_process sd = None →
  generate_all_screenshots E project_path scheme clean sd st =
    (Ok false, add_event (Print (MUnknownDevice (default "" sd))) (prologue clean st)).
Proof.
  intros Hsel. unfold generate_all_screenshots. rewrite Hsel.
  rewrite bind_run, print_run. cbv beta iota.
  rewrite bind_run, prologue_run. cbv beta iota.
  by rewrite bind_run, print_run.
Qed.

Lemma generate_all_screenshots_run clean sd devs st c st2 :
  devices_to_process sd = Some devs →
  for_fold devs 0%nat (device_iteration E project_path scheme (length devs))
           (prologue clean st) = (Ok c, st2) →
  generate_all_screenshots E project_path scheme clean sd st =
    (Ok (c =? length devs)%nat,
     {| out := write_manifest (manifest_of E st2) (out st2);
        trace := trace st2 ++ epilogue c (length devs) |}).
Proof.
  intros Hsel Hloop. unfold generate_all_screenshots. rewrite Hsel.
  rewrite bind_run, print_run. cbv beta iota.
  rewrite bind_run, prologue_run. cbv beta iota.
  rewrite bind_run, Hloop. cbv beta iota.
  rewrite bind_run, create_screenshot_manifest_run. cbv beta iota.
  unfold epilogue, print, emit, mbind, M_bind, mret, M_ret, add_event.
  destruct (c <? length devs)%nat; simpl; rewrite <- ?app_assoc; done.
Qed.



End Run.

(** ** C1: the exit status *)


Lemma truthy_true (s : string) : Str.truthy s = true ↔ s ≠ "".
Proof.
  unfold Str.truthy. rewrite negb_true_iff.
  destruct (String.eqb_spec s ""); split; congruence.
Qed.

Lemma devices_to_process_unknown (name : string) :
  name ≠ "" → lookup_device name SCREENSHOT_DEVICES = None →
  devices_to_process (Some name) = None.
Proof.
  intros Hne Hl. unfold devices_to_process.
  apply truthy_true in Hne. by rewrite Hne, Hl.
Qed.

(** Three runs: every tool succeeds; no simulator is installed; the
    project file is missing. *)
Example every_device_completed :
  (main (Fixture.env Fixture.well_named) (Fixture.args true None) Fixture.used_dir).1 = 0.
Proof. by vm_compute. Qed.

Example no_simulator_installed :
  (main Fixture.bare (Fixture.args false None) Fixture.empty_dir).1 = 1.
Proof. by vm_compute. Qed.

Example project_missing :
  main {| respond := λ _ _, Returns Fixture.ok;
          json_loads := λ _, inr Fixture.simulators;
          saved_images := λ _, ∅;
          strftime := λ _, "2024-05-01 12:00:00";
          path_exists := λ _, false |}
       (Fixture.args true None) Fixture.used_dir
  = (1, {| out := Fixture.used_dir; trace := [Print MProjectNotFound] |}).
Proof. reflexivity. Qed.

(** ** C3: an unknown device name *)

(** What C3 says of a run: it fails and has run no command. *)
Definition aborts_before_simulators (E : Env) (args : Args) (o : OutputDir) : Prop :=
  (main E args o).1 = 1 ∧ commands (trace (main E args o).2) = [].

(** C3 as stated fails: the device name [""] is not in the table, yet
    [if specific_device:] takes it for no selection; the run goes through
    all configured devices, runs thirty commands and exits with status 0. *)
Lemma empty_device_name_runs_all_devices :
  let run := main (Fixture.env Fixture.well_named) (Fixture.args false (Some ""))
                  Fixture.empty_dir in
  lookup_device "" SCREENSHOT_DEVICES = None ∧
  run.1 = 0 ∧
  length (commands (trace run.2)) = 30%nat ∧
  ¬ (∀ E args o name,
       arg_device args = Some name →
       lookup_device name SCREENSHOT_DEVICES = None →
       aborts_before_simulators E args o).
Proof.
  intros run. split; [reflexivity|]. split; [by vm_compute|].
  split; [by vm_compute|]. intros H.
  specialize (H (Fixture.env Fixture.well_named) (Fixture.args false (Some ""))
                Fixture.empty_dir "" eq_refl eq_refl).
  destruct H as [H _]. vm_compute in H. discriminate.
Qed.

(** C3, amended.  For a non-empty device name that is not in the table the
    run prints its start message, the cleaning message if asked to clean,
    and the unknown-device message, and nothing else happens: no command is
    run for any simulator, and the exit status is 1.  Where the project is
    not found either, only that is reported. *)
Theorem unknown_device_aborts_before_simulators (E : Env) (args : Args)
    (o : OutputDir) (name : string) :
  arg_device args = Some name →
  name ≠ "" →
  lookup_device name SCREENSHOT_DEVICES = None →
  (main E args o).1 = 1 ∧
  commands (trace (main E args o).2) = [] ∧
  trace (main E args o).2 =
    if path_exists E (path_join (arg_project_path args) "OneBox.xcodeproj")
    then [Print MStarting] ++ (if arg_clean args then [Print MCleaning] else [])
         ++ [Print (MUnknownDevice name)]
    else [Print MProjectNotFound].
Proof.
  intros Hdev Hne Hl. unfold main.
  destruct (path_exists E _); simpl; [|done].
  rewrite generate_all_screenshots_unknown
    by (rewrite Hdev; by apply devices_to_process_unknown).
  rewrite Hdev. simpl. by destruct (arg_clean args).
Qed.

Lemma unknown_device_aborts_before_simulators_witness :
  (main Fixture.bare (Fixture.args true (Some "iPhone 14")) Fixture.used_dir).1 = 1 ∧
  commands (trace (main Fixture.bare (Fixture.args true (Some "iPhone 14"))
                        Fixture.used_dir).2) = [] ∧
  trace (main Fixture.bare (Fixture.args true (Some "iPhone 14")) Fixture.used_dir).2 =
    [Print MStarting; Print MCleaning; Print (MUnknownDevice "iPhone 14")].
Proof.
  apply (unknown_device_aborts_before_simulators Fixture.bare
           (Fixture.args true (Some "iPhone 14")) Fixture.used_dir "iPhone 14");
    [reflexivity | discriminate | reflexivity].
Defined.

(** ** C10: cleaning before the device name is checked *)




(** ** C4: the manifest *)


(** The folder of an earlier run holds one image and a file of another
    kind. *)
Example manifest_entry_of_used_folder :
  manifest_entry {[ "iPhone_15_home_screen.png" := Bytes "old"; "README" := Bytes "r" ]}
  = {| screenshot_count := 1; screenshot_names := ["iPhone_15_home_screen.png"] |}.
Proof. by vm_compute. Qed.

(** ** C5: organizing the screenshots of a device *)




(** ** C7: booting a simulator *)

Lemma scan_device_list_no_match (n : string) (dl : list SimDevice) :
  (∀ dev, dev ∈ dl → sim_name dev = n → isAvailable dev = false) →
  scan_device_list n dl = None.
Proof.
  induction dl as [|dev dl IH]; intros H; simpl; [done|].
  destruct (String.eqb_spec (sim_name dev) n) as [Hn|Hn]; simpl.
  - rewrite (H dev) by (done || left). apply IH.
    intros dev' Hin. apply H. by right.
  - apply IH. intros dev' Hin. apply H. by right.
Qed.

Lemma find_device_no_match (n : string) (runtimes : list (string * list SimDevice)) :
  (∀ rt dl dev, (rt, dl) ∈ runtimes → dev ∈ dl →
                sim_name dev = n → isAvailable dev = false) →
  find_device n runtimes None = None.
Proof.
  induction runtimes as [|[rt dl] runtimes IH]; intros H; simpl; [done|].
  rewrite scan_device_list_no_match.
  - simpl. apply IH. intros rt' dl' dev Hin. apply (H rt' dl' dev). by right.
  - intros dev Hin. apply (H rt dl dev); [left | done].
Qed.

(** C7.  Suppose the listing command returns.  Where it reports a failure,
    or lists no available simulator of the given name, [boot_simulator]
    returns [False], raises nothing and runs no further command.  Where a
    simulator is found and the boot command returns, an exit status other
    than zero without the already-booted text in the error output makes the
    method return [False]; with a zero status, or with that text, the
    method goes on to open the Simulator application and returns the
    identifier, unless running that last command raises. *)
Theorem boot_simulator_outcomes (E : Env) (n : string) (st : State)
    (p : CompletedProcess) :
  let list_cmd := plain ["xcrun"; "simctl"; "list"; "devices"; "-j"] in
  let t1 := trace st ++ [Print (MBooting n)] in
  let t2 := t1 ++ [Run list_cmd] in
  respond E t1 list_cmd = Returns p →
  ((returncode p ≠ 0 ∨
    ∃ runtimes, json_loads E (stdout p) = inr runtimes ∧
      ∀ rt dl dev, (rt, dl) ∈ runtimes → dev ∈ dl →
                   sim_name dev = n → isAvailable dev = false) →
   ∃ msg, boot_simulator E n st =
            (Ok None, {| out := out st; trace := t2 ++ [Print msg] |})) ∧
  (∀ runtimes uuid q,
     returncode p = 0 →
     json_loads E (stdout p) = inr runtimes →
     find_device n runtimes None = Some uuid →
     uuid ≠ "" →
     let boot_cmd := plain ["xcrun"; "simctl"; "boot"; uuid] in
     let t3 := t2 ++ [Run boot_cmd] in
     respond E t2 boot_cmd = Returns q →
     if (returncode q =? 0) || Str.contains booted_marker (stderr q)
     then (boot_simulator E n st).1 =
            match respond E (t3 ++ [Sleep 5]) (plain ["open"; "-a"; "Simulator"]) with
            | Returns _ => Ok (Some uuid)
            | Raises e => Exc e
            end
     else boot_simulator E n st =
            (Ok None, {| out := out st;
                         trace := t3 ++ [Print (MBootFailed (stderr q))] |})).
Proof.
  intros list_cmd t1 t2 Hlist.
  assert (Hstart : boot_simulator E n st =
    (if negb (returncode p =? 0) then
       print (MListFailed (stderr p)) ;; mret None
     else
       match json_loads E (stdout p) with
       | inl e => raise e
       | inr runtimes =>
           match find_device n runtimes None with
           | Some uuid =>
               if Str.truthy uuid then
                 result ← subprocess_run E (plain ["xcrun"; "simctl"; "boot"; uuid]);
                 if boot_failed result then
                   print (MBootFailed (stderr result)) ;; mret None
                 else
                   sleep 5 ;;
                   subprocess_run E (plain ["open"; "-a"; "Simulator"]) ;;
                   sleep 2 ;;
                   mret (Some uuid)
               else print (MDeviceNotFound n) ;; mret None
           | None => print (MDeviceNotFound n) ;; mret None
           end
       end) {| out := out st; trace := t2 |}).
  { unfold boot_simulator. rewrite bind_run, print_run. cbv beta iota.
    rewrite bind_run. unfold subprocess_run at 1. cbn [add_event trace out].
    fold t1. fold list_cmd. rewrite Hlist. reflexivity. }
  split.
  - intros [Hrc|(runtimes & Hjson & Hnone)].
    + exists (MListFailed (stderr p)). rewrite Hstart.
      apply Z.eqb_neq in Hrc. rewrite Hrc. reflexivity.
    + rewrite Hstart. destruct (returncode p =? 0); simpl.
      * exists (MDeviceNotFound n). rewrite Hjson.
        by rewrite find_device_no_match.
      * by exists (MListFailed (stderr p)).
  - intros runtimes uuid q Hrc Hjson Hfind Hne boot_cmd t3 Hboot.
    apply truthy_true in Hne.
    assert (Hrun : boot_simulator E n st =
      (if boot_failed q then
         print (MBootFailed (stderr q)) ;; mret None
       else
         sleep 5 ;;
         subprocess_run E (plain ["open"; "-a"; "Simulator"]) ;;
         sleep 2 ;;
         mret (Some uuid)) {| out := out st; trace := t3 |}).
    { rewrite Hstart, Hrc. simpl. rewrite Hjson, Hfind, Hne.
      rewrite bind_run. unfold subprocess_run at 1. cbn [add_event trace out].
      fold boot_cmd. rewrite Hboot. reflexivity. }
    rewrite Hrun. unfold boot_failed.
    assert (Hopen : ∀ s : State,
      ((sleep 5 ;; subprocess_run E (plain ["open"; "-a"; "Simulator"]) ;;
        sleep 2 ;; mret (Some uuid)) s).1 =
      match respond E (trace s ++ [Sleep 5]) (plain ["open"; "-a"; "Simulator"]) with
      | Returns _ => Ok (Some uuid)
      | Raises e => Exc e
      end).
    { intros s. unfold subprocess_run, sleep, emit, mbind, M_bind. simpl.
      destruct (respond E (trace s ++ [Sleep 5]) (plain ["open"; "-a"; "Simulator"]));
        reflexivity. }
    destruct (returncode q =? 0); simpl.
    + apply Hopen.
    + destruct (Str.contains booted_marker (stderr q)); simpl; [|done].
      apply Hopen.
Qed.

Lemma boot_simulator_outcomes_witness :
  (∃ msg, boot_simulator Fixture.bare "iPhone 15" (initial Fixture.empty_dir) =
     (Ok None,
      {| out := Fixture.empty_dir;
         trace := [Print (MBooting "iPhone 15");
                   Run (plain ["xcrun"; "simctl"; "list"; "devices"; "-j"]);
                   Print msg] |})) ∧
  (boot_simulator Fixture.booted "iPhone 15" (initial Fixture.empty_dir)).1
    = Ok (Some "B2").
Proof.
  split.
  - destruct (boot_simulator_outcomes Fixture.bare "iPhone 15"
                (initial Fixture.empty_dir) Fixture.ok eq_refl) as [H _].
    apply H. right. exists []. split; [reflexivity|].
    intros rt dl dev Hin. by apply elem_of_nil in Hin.
  - destruct (boot_simulator_outcomes Fixture.booted "iPhone 15"
                (initial Fixture.empty_dir) Fixture.ok eq_refl) as [_ H].
    apply (H Fixture.simulators "B2"
             (Fixture.exit_1 "Unable to boot device in current state: Booted"));
      [reflexivity | reflexivity | reflexivity | discriminate | reflexivity].
Defined.

(** ** The trace of the loop over the devices *)

(** The events of one turn of the loop after its [MProcessing] message. *)
Definition body_event (n : string) (cfg : DeviceConfig) (e : Event) : Prop :=
  device_event n cfg e ∨ ∃ x, e = Print (MFailed n x).

(** The events of one turn of the loop. *)
Definition turn_event (n : string) (cfg : DeviceConfig) (e : Event) : Prop :=
  body_event n cfg e ∨ ∃ i total, e = Print (MProcessing n i total).

Definition failed (t : list Event) (device_name : string) : Prop :=
  ∃ x, In (Print (MFailed device_name x)) t.

Lemma turn_event_failed n cfg m x : turn_event n cfg (Print (MFailed m x)) → m = n.
Proof. intros [[[]|(? & [= -> _])]|(? & ? & [=])]. done. Qed.

Lemma turn_event_completed n cfg m : turn_event n cfg (Print (MCompleted m)) → m = n.
Proof. intros [[H|(? & [=])]|(? & ? & [=])]. exact H. Qed.

Lemma body_event_processing_name n cfg e :
  body_event n cfg e → processing_name e = None.
Proof.
  intros [H|(x & ->)]; [|done].
  destruct e as [m| |]; [|done..]. by destruct m.
Qed.

Lemma omap_processing_name_body n cfg (l : list Event) :
  Forall (body_event n cfg) l → omap processing_name l = [].
Proof.
  induction 1 as [|e l He _ IH]; [done|]. simpl.
  rewrite (body_event_processing_name _ _ _ He). exact IH.
Qed.

Section LoopTrace.

Variable E : Env.
Variables project_path scheme : string.

(** One turn of the loop: the [MProcessing] message of the device, then
    events of that device only; the handler's [MFailed] message is there
    exactly when the [try] block raised, and then the device is not
    completed. *)
Lemma device_iteration_trace total c n cfg st :
  ∃ c' st' body,
    device_iteration E project_path scheme total c (n, cfg) st = (Ok c', st') ∧
    trace st' = trace st ++ Print (MProcessing n (c + 1) total) :: body ∧
    Forall (body_event n cfg) body ∧
    (failed body n → ¬ completed body n).
Proof.
  unfold device_iteration. rewrite bind_run, print_run. cbv beta iota.
  cbn [fst snd]. set (st0 := add_event _ st). unfold try_except.
  pose proof (process_device_result E project_path scheme c n cfg st0)
    as (new & Ht & Hr).
  assert (Hstep : ∀ l, Forall (step_event n cfg) l →
            Forall (body_event n cfg) l ∧ ¬ failed l n ∧ ¬ completed l n).
  { intros l Hl. split; [|split].
    - eapply Forall_impl; [exact Hl|]. intros e [He _]. by left.
    - intros [x Hin]. eapply Forall_forall in Hl; [|apply list_elem_of_In, Hin].
      by destruct Hl as [[] _].
    - intros Hin. eapply Forall_forall in Hl; [|apply list_elem_of_In, Hin].
      destruct Hl as [_ Hl]. by eapply Hl. }
  destruct (process_device _ _ _ _ _ _ st0) as [[c'|e] st1]; simpl in *.
  - exists c', st1, new. split; [done|].
    split; [rewrite Ht; unfold st0; simpl; by rewrite <- app_assoc|].
    destruct Hr as [[-> F]|[-> (pre & -> & F)]].
    + destruct (Hstep _ F) as (? & ? & ?). done.
    + destruct (Hstep _ F) as (Hb & Hf & Hc). split.
      * apply Forall_app. split; [done|]. constructor; [by left | constructor].
      * intros [x [Hin|[[=]|[]]]%in_app_iff]. exfalso. apply Hf. by exists x.
  - exists c, (add_event (Print (MFailed n e)) st1), (new ++ [Print (MFailed n e)]).
    split; [done|]. destruct (Hstep _ Hr) as (Hb & Hf & Hc).
    split; [simpl; rewrite Ht; unfold st0; simpl; by rewrite <- !app_assoc|].
    split.
    + apply Forall_app. split; [done|]. constructor; [right; eauto | constructor].
    + intros _ [Hin|[[=]|[]]]%in_app_iff. by apply Hc.
Qed.

(** The loop announces every device of its list, once, in the order of the
    list, whatever happened to the devices before; every event belongs to
    the turn of one of the devices; a device whose turn ended in the
    exception handler is not completed. *)
Lemma device_loop_trace total (devs : list (string * DeviceConfig)) c st :
  NoDup devs.*1 →
  ∃ c' st' new,
    for_fold devs c (device_iteration E project_path scheme total) st = (Ok c', st') ∧
    trace st' = trace st ++ new ∧
    omap processing_name new = devs.*1 ∧
    Forall (λ e, ∃ d, d ∈ devs ∧ turn_event d.1 d.2 e) new ∧
    (∀ m, failed new m → ¬ completed new m).
Proof.
  revert c st. induction devs as [|[n cfg] devs IH]; intros c st Hnd; simpl.
  - exists c, st, []. rewrite app_nil_r. repeat split; try done.
    by intros m [x []].
  - apply NoDup_cons in Hnd as [Hn Hnd].
    destruct (device_iteration_trace total c n cfg st)
      as (c1 & st1 & body & Hrun1 & Ht1 & Hb1 & Hf1).
    destruct (IH c1 st1 Hnd) as (c' & st' & new2 & Hrun2 & Ht2 & Ho2 & He2 & Hf2).
    exists c', st', (Print (MProcessing n (c + 1) total) :: body ++ new2).
    rewrite bind_run, Hrun1. split; [done|].
    split; [rewrite Ht2, Ht1; by rewrite <- app_assoc|].
    assert (Hin2 : ∀ e m, In e new2 → turn_event m cfg e ∨ True →
              ∃ d, d ∈ devs ∧ turn_event d.1 d.2 e).
    { intros e m Hin _. eapply Forall_forall in He2; [exact He2|].
      by apply list_elem_of_In. }
    assert (Hrest : ∀ m, (failed new2 m ∨ completed new2 m) → m ∈ devs.*1).
    { intros m [[x Hin]|Hin];
        destruct (Hin2 _ m Hin (or_intror I)) as ([n' cfg'] & Hd & Ht);
        [apply turn_event_failed in Ht | apply turn_event_completed in Ht];
        simpl in Ht; subst m; apply list_elem_of_fmap; by exists (n', cfg'). }
    assert (Hbody : ∀ m, (failed body m ∨ completed body m) → m = n).
    { intros m [[x Hin]|Hin];
        (eapply Forall_forall in Hb1; [|apply list_elem_of_In, Hin]);
        [eapply turn_event_failed | eapply turn_event_completed]; by left. }
    split; [|split].
    + simpl. rewrite omap_app, (omap_processing_name_body _ _ _ Hb1). simpl.
      by rewrite Ho2.
    + constructor.
      * exists (n, cfg). split; [left|]. right. eauto.
      * apply Forall_app. split.
        -- eapply Forall_impl; [exact Hb1|]. intros e He.
           exists (n, cfg). split; [left|]. by left.
        -- eapply Forall_impl; [exact He2|]. intros e (d & Hd & He).
           exists d. split; [by right | done].
    + intros m [x Hin] Hc. unfold completed in Hc.
      destruct Hin as [Heq|Hin]; [discriminate|].
      destruct Hc as [Heq|Hc]; [discriminate|].
      apply in_app_iff in Hin, Hc.
      destruct Hin as [Hin|Hin], Hc as [Hc|Hc].
      * assert (m = n) as -> by (apply Hbody; left; by exists x).
        apply Hf1; [by exists x | done].
      * assert (m = n) as -> by (apply Hbody; left; by exists x).
        apply Hn, Hrest. by right.
      * assert (m = n) as -> by (apply Hbody; by right).
        apply Hn, Hrest. left. by exists x.
      * apply (Hf2 m); [by exists x | done].
Qed.

End LoopTrace.

(** The events before and after the loop. *)
Definition frame_event (e : Event) : Prop :=
  match e with
  | Print MStarting | Print MCleaning | Print (MManifestCreated _)
  | Print MGenerationCompleted | Print (MSummary _ _) | Print (MSavedTo _)
  | Print (MDevicesFailed _) => True
  | _ => False
  end.

Lemma epilogue_frame project_path c total :
  Forall frame_event (epilogue project_path c total).
Proof.
  unfold epilogue. apply Forall_app. split.
  - by repeat constructor.
  - destruct (c <? total)%nat; by repeat constructor.
Qed.

Lemma prologue_frame clean o :
  ∃ pre, trace (prologue clean (initial o)) = pre ∧ Forall frame_event pre.
Proof. destruct clean; simpl; eexists; split; try reflexivity; by repeat constructor. Qed.

Lemma frame_event_quiet (l : list Event) :
  Forall frame_event l →
  omap processing_name l = [] ∧ (∀ m, ¬ failed l m) ∧ (∀ m, ¬ completed l m).
Proof.
  intros Hl. split; [|split].
  - induction Hl as [|e l He _ IH]; [done|]. simpl.
    destruct e as [[]| |]; try done.
  - intros m [x Hin]. eapply Forall_forall in Hl; [|apply list_elem_of_In, Hin]. done.
  - intros m Hin. eapply Forall_forall in Hl; [|apply list_elem_of_In, Hin]. done.
Qed.

(** The shape of a run over a valid selection. *)
Lemma generate_all_screenshots_trace (E : Env) (project_path scheme : string)
    (clean : bool) (sd : option string) (devs : list (string * DeviceConfig))
    (o : OutputDir) :
  devices_to_process sd = Some devs →
  ∃ success st st2 pre new post,
    generate_all_screenshots E project_path scheme clean sd (initial o)
      = (Ok success, st) ∧
    out st = write_manifest (manifest_of E st2) (out st2) ∧
    trace st = pre ++ new ++ post ∧
    Forall frame_event pre ∧ Forall frame_event post ∧
    In (Print (MManifestCreated (path_join (output_dir project_path) manifest_file)))
       post ∧
    omap processing_name new = devs.*1 ∧
    Forall (λ e, ∃ d, d ∈ devs ∧ turn_event d.1 d.2 e) new ∧
    (∀ m, failed new m → ¬ completed new m).
Proof.
  intros Hsel.
  destruct (device_loop_trace E project_path scheme (length devs) devs 0
              (prologue clean (initial o)) (devices_to_process_NoDup _ _ Hsel))
    as (c & st2 & new & Hloop & Ht & Ho & He & Hf).
  destruct (prologue_frame clean o) as (pre & Hpre & Fpre).
  rewrite (generate_all_screenshots_run _ _ _ _ _ _ _ _ _ Hsel Hloop).
  eexists _, _, st2, pre, new, (epilogue project_path c (length devs)).
  split; [reflexivity|]. simpl. split; [done|].
  split; [by rewrite Ht, Hpre, <- app_assoc|].
  split; [done|]. split; [apply epilogue_frame|].
  split; [by left|]. done.
Qed.

(** ** C2: a failing device does not stop the run *)



(** ** What a run leaves alone in the output directory *)

(** *** Folders other than [d] *)

Definition others_kept (d : string) : relation State := λ st st',
  ∀ d', d' ≠ d → folders (out st') !! d' = folders (out st) !! d'.

#[global] Instance others_kept_preorder d : PreOrder (others_kept d).
Proof.
  split.
  - by intros st d' _.
  - intros st1 st2 st3 H1 H2 d' Hne. by rewrite H2, H1.
Qed.

Lemma others_kept_add_event d e st : others_kept d st (add_event e st).
Proof. by intros d' _. Qed.

Lemma others_kept_same_folders d f st :
  (∀ o, folders (f o) = folders o) → others_kept d st (set_out f st).
Proof. intros Hf d' _. simpl. by rewrite Hf. Qed.

Lemma others_kept_mkdir d st : others_kept d st (set_out (mkdir d) st).
Proof.
  intros d' Hne. simpl. unfold mkdir.
  destruct (folders (out st) !! d); simpl; [done|]. by rewrite lookup_insert_ne.
Qed.

Lemma others_kept_rename d n c st : others_kept d st (set_out (rename n c d) st).
Proof. intros d' Hne. simpl. by rewrite lookup_insert_ne. Qed.

Ltac others_side :=
  first
    [ apply others_kept_add_event
    | apply others_kept_mkdir
    | apply others_kept_rename
    | apply others_kept_same_folders; intros ?; reflexivity ].

(** *** Files whose names do not end in [.png] *)

Definition nonpng_kept : relation State := λ st st',
  (∀ f, is_png f = false →
        is_Some (files (out st) !! f) → is_Some (files (out st') !! f)) ∧
  (∀ d, is_Some (folders (out st) !! d) → is_Some (folders (out st') !! d)) ∧
  (∀ d f, is_png f = false →
          default ∅ (folders (out st') !! d) !! f
          = default ∅ (folders (out st) !! d) !! f).

#[global] Instance nonpng_kept_preorder : PreOrder nonpng_kept.
Proof.
  split.
  - by intros st.
  - intros st1 st2 st3 (F1 & D1 & C1) (F2 & D2 & C2). split; [|split].
    + intros f Hf H. by apply F2, F1.
    + intros d H. by apply D2, D1.
    + intros d f Hf. by rewrite C2, C1.
Qed.

Lemma nonpng_kept_add_event e st : nonpng_kept st (add_event e st).
Proof. by split. Qed.

Lemma nonpng_kept_unlink n st :
  is_png n = true → nonpng_kept st (set_out (unlink n) st).
Proof.
  intros Hn. split; [|by split]. intros f Hf. simpl.
  rewrite lookup_delete_ne; [done|]. congruence.
Qed.

Lemma nonpng_kept_mkdir d st : nonpng_kept st (set_out (mkdir d) st).
Proof.
  unfold nonpng_kept, set_out, mkdir. simpl.
  destruct (folders (out st) !! d) as [dir|] eqn:Hd; [by split|].
  split; [done|]. simpl. split.
  - intros d' H. destruct (decide (d = d')) as [->|Hne].
    + rewrite lookup_insert_eq. eauto.
    + by rewrite lookup_insert_ne.
  - intros d' f Hf. destruct (decide (d = d')) as [->|Hne].
    + by rewrite lookup_insert_eq, Hd.
    + by rewrite lookup_insert_ne.
Qed.

Lemma nonpng_kept_rename n c d st :
  is_png n = true → nonpng_kept st (set_out (rename n c d) st).
Proof.
  intros Hn. simpl. split; [|split]; simpl.
  - intros f Hf. rewrite lookup_delete_ne; [done|]. congruence.
  - intros d' H. destruct (decide (d = d')) as [->|Hne].
    + rewrite lookup_insert_eq. eauto.
    + by rewrite lookup_insert_ne.
  - intros d' f Hf. destruct (decide (d = d')) as [->|Hne].
    + rewrite lookup_insert_eq. simpl. rewrite lookup_insert_ne; [done|]. congruence.
    + by rewrite lookup_insert_ne.
Qed.

Lemma nonpng_kept_write_manifest m st :
  nonpng_kept st (set_out (write_manifest m) st).
Proof.
  split; [|by split]. intros f Hf H. simpl.
  destruct (decide (manifest_file = f)) as [->|Hne].
  - rewrite lookup_insert_eq. eauto.
  - by rewrite lookup_insert_ne.
Qed.

Lemma nonpng_kept_save_images new st :
  nonpng_kept st (set_out (save_images new) st).
Proof.
  split; [|by split]. intros f Hf [c Hc]. simpl.
  rewrite lookup_union. destruct (new !! f); simpl; rewrite ?Hc; eauto.
Qed.

Ltac nonpng_side :=
  first
    [ apply nonpng_kept_add_event
    | apply nonpng_kept_mkdir
    | apply nonpng_kept_write_manifest
    | apply nonpng_kept_save_images
    | match goal with
      | H : _ ∈ glob_png _ |- _ =>
          apply elem_of_glob_png in H; destruct H as [? _];
          first [ by apply nonpng_kept_unlink | by apply nonpng_kept_rename ]
      end ].

Ltac unfold_driver :=
  unfold generate_all_screenshots, device_iteration, process_device,
    boot_simulator, setup_simulator_environment, install_app_to_simulator,
    run_screenshot_tests, organize_screenshots, create_screenshot_manifest,
    clean_screenshots, print, sleep.

Section Frames.

Variable E : Env.
Variables project_path scheme : string.

Lemma generate_all_screenshots_others_kept clean name cfg :
  devices_to_process (Some name) = Some [(name, cfg)] →
  stable (others_kept (folder_name cfg))
         (generate_all_screenshots E project_path scheme clean (Some name)).
Proof.
  intros Hsel. unfold generate_all_screenshots. rewrite Hsel.
  unfold_driver. stable_steps; others_side.
Qed.


End Frames.

(** ** C8: a run for one device *)

Lemma table_distinct n cfg n' cfg' :
  (n, cfg) ∈ SCREENSHOT_DEVICES → (n', cfg') ∈ SCREENSHOT_DEVICES → n' ≠ n →
  simulator cfg' ≠ simulator cfg ∧ folder_name cfg' ≠ folder_name cfg.
Proof.
  unfold SCREENSHOT_DEVICES. intros H1 H2 Hne.
  repeat match goal with
         | H : _ ∈ _ :: _ |- _ => apply elem_of_cons in H; destruct H as [H|H]
         | H : _ ∈ [] |- _ => by apply elem_of_nil in H
         end;
    injection H1 as -> ->; injection H2 as -> ->;
    first [ done | split; intros Heq; vm_compute in Heq; discriminate ].
Qed.

Lemma lookup_device_truthy name cfg :
  lookup_device name SCREENSHOT_DEVICES = Some cfg → Str.truthy name = true.
Proof.
  intros H. apply truthy_true. intros ->. vm_compute in H. discriminate.
Qed.

Lemma devices_to_process_single name cfg :
  lookup_device name SCREENSHOT_DEVICES = Some cfg →
  devices_to_process (Some name) = Some [(name, cfg)].
Proof.
  intros H. unfold devices_to_process.
  by rewrite (lookup_device_truthy _ _ H), H.
Qed.

(** C8.  In a run for one configured device, every event is a message of
    the run as a whole or an event of the turn of that device.  For every
    other device of the table: it is not announced and not booted, no UI
    test is run for it, no file is moved to its folder, and its folder is
    after the run what it was before; the same holds of every folder other
    than that of the selected device. *)
Theorem single_device_run_is_confined (E : Env) (project_path scheme : string)
    (clean : bool) (name : string) (cfg : DeviceConfig) (o : OutputDir) :
  lookup_device name SCREENSHOT_DEVICES = Some cfg →
  ∃ success st,
    generate_all_screenshots E project_path scheme clean (Some name) (initial o)
      = (Ok success, st) ∧
    omap processing_name (trace st) = [name] ∧
    Forall (λ e, frame_event e ∨ turn_event name cfg e) (trace st) ∧
    (∀ n' cfg', (n', cfg') ∈ SCREENSHOT_DEVICES → n' ≠ name →
       ¬ In (Print (MBooting n')) (trace st) ∧
       ¬ In (Print (MCapturing (simulator cfg'))) (trace st) ∧
       (∀ c, In (Run c) (trace st) → ¬ sets_screenshot_device c (simulator cfg')) ∧
       (∀ f, ¬ In (Print (MMoved f (folder_name cfg'))) (trace st)) ∧
       folders (out st) !! folder_name cfg' = folders o !! folder_name cfg') ∧
    (∀ d, d ≠ folder_name cfg → folders (out st) !! d = folders o !! d).
Proof.
  intros Hl. pose proof (devices_to_process_single _ _ Hl) as Hsel.
  destruct (generate_all_screenshots_trace E project_path scheme clean _ _ o Hsel)
    as (success & st & st2 & pre & new & post & Hrun & _ & Ht & Fpre & Fpost
        & _ & Ho & He & _).
  exists success, st. split; [done|].
  destruct (frame_event_quiet _ Fpre) as (Hpre1 & _ & _).
  destruct (frame_event_quiet _ Fpost) as (Hpost1 & _ & _).
  assert (Hall : Forall (λ e, frame_event e ∨ turn_event name cfg e) (trace st)).
  { rewrite Ht. repeat apply Forall_app_2.
    - eapply Forall_impl; [exact Fpre|]. tauto.
    - eapply Forall_impl; [exact He|].
      intros e (d & ->%list_elem_of_singleton & Hd). by right.
    - eapply Forall_impl; [exact Fpost|]. tauto. }
  assert (Hkept : ∀ d, d ≠ folder_name cfg → folders (out st) !! d = folders o !! d).
  { intros d Hd.
    pose proof (generate_all_screenshots_others_kept E project_path scheme
                  clean name cfg Hsel (initial o) d Hd) as H.
    by rewrite Hrun in H. }
  split; [|split; [done|split; [|done]]].
  { rewrite Ht, !omap_app, Hpre1, Hpost1, Ho. by rewrite app_nil_r. }
  intros n' cfg' Hin' Hne.
  destruct (table_distinct name cfg n' cfg' (lookup_device_Some _ _ _ Hl) Hin' Hne)
    as [Hsim Hfold].
  assert (Hev : ∀ e, In e (trace st) → frame_event e ∨ turn_event name cfg e).
  { intros e Hin. eapply Forall_forall in Hall; [exact Hall|].
    by apply list_elem_of_In. }
  repeat split.
  - intros [[]|[[H|[? [=]]]|(? & ? & [=])]]%Hev. by apply Hne.
  - intros [[]|[[H|[? [=]]]|(? & ? & [=])]]%Hev. by apply Hsim.
  - intros c [[]|[[H|[? [=]]]|(? & ? & [=])]]%Hev Hc. by apply Hsim, H.
  - intros f [[]|[[[H _]|[? [=]]]|(? & ? & [=])]]%Hev. by apply Hfold.
  - by apply Hkept.
Qed.

Lemma single_device_run_is_confined_witness :
  ∃ success st,
    generate_all_screenshots (Fixture.env Fixture.well_named) "." "OneBox" true
      (Some "iPhone 15 Pro Max") (initial Fixture.used_dir) = (Ok success, st) ∧
    omap processing_name (trace st) = ["iPhone 15 Pro Max"] ∧
    folders (out st) !! "iPhone_15" = folders Fixture.used_dir !! "iPhone_15".
Proof.
  destruct (single_device_run_is_confined (Fixture.env Fixture.well_named) "."
              "OneBox" true "iPhone 15 Pro Max"
              {| simulator := "iPhone 15 Pro Max"; display_size := "6.7-inch";
                 required := true;
                 screenshots := ["home_screen"; "images_to_pdf_flow";
                                 "pdf_merge_interface"; "interactive_signing";
                                 "privacy_dashboard"] |}
              Fixture.used_dir eq_refl)
    as (success & st & Hrun & Hnames & _ & _ & Hkept).
  exists success, st. split; [exact Hrun|]. split; [exact Hnames|].
  apply Hkept. discriminate.
Defined.

(** ** C9: only [*.png] names are touched *)


(** ** C6: what is left at the top level *)


(** The name of a file contains the folder-safe name of a device of the
    table. *)
Definition known_match (f : string) : Prop :=
  ∃ n cfg, (n, cfg) ∈ SCREENSHOT_DEVICES ∧ name_matches (folder_name cfg) f = true.

(** No top-level image of the directory is named for a device of the
    table. *)
Definition no_stray_image (o : OutputDir) : Prop :=
  ∀ f, is_Some (files o !! f) → is_png f = true → ¬ known_match f.


Definition keeps_no_stray : relation State := λ st st',
  no_stray_image (out st) → no_stray_image (out st').

#[global] Instance keeps_no_stray_preorder : PreOrder keeps_no_stray.
Proof.
  split.
  - intros st H. exact H.
  - intros st1 st2 st3 H1 H2 H. apply H2, H1, H.
Qed.


Section Strays.

Variable E : Env.
Variables project_path scheme : string.







End Strays.



(** * Further properties of the driver *)

(** ** Clean *)




(** ** The search for the simulator *)

Lemma scan_device_list_Some (n : string) (dl : list SimDevice) (u : string) :
  scan_device_list n dl = Some u →
  ∃ dev, dev ∈ dl ∧ sim_name dev = n ∧ isAvailable dev = true ∧ udid dev = u.
Proof.
  induction dl as [|dev dl IH]; simpl; [done|].
  destruct (String.eqb_spec (sim_name dev) n) as [Hn|Hn]; simpl.
  - destruct (isAvailable dev) eqn:Ha.
    + intros [= <-]. exists dev. split; [left | done].
    + intros (dev' & Hin & H)%IH. exists dev'. split; [by right | done].
  - intros (dev' & Hin & H)%IH. exists dev'. split; [by right | done].
Qed.

Lemma scan_device_list_is_Some (n : string) (dl : list SimDevice) (dev : SimDevice) :
  dev ∈ dl → sim_name dev = n → isAvailable dev = true →
  is_Some (scan_device_list n dl).
Proof.
  intros Hin Hn Ha. induction dl as [|dev' dl IH]; [by apply elem_of_nil in Hin|].
  simpl. destruct (String.eqb (sim_name dev') n && isAvailable dev') eqn:Hm; [eauto|].
  apply elem_of_cons in Hin as [<-|Hin]; [|by apply IH].
  rewrite Hn, String.eqb_refl, Ha in Hm. discriminate.
Qed.

(** The simulators of a listing that the search accepts for a name. *)
Definition candidate (n : string) (runtimes : list (string * list SimDevice))
    (dev : SimDevice) : Prop :=
  (∃ rt dl, (rt, dl) ∈ runtimes ∧ dev ∈ dl) ∧
  sim_name dev = n ∧ isAvailable dev = true.

Lemma find_device_from (n : string) (runtimes : list (string * list SimDevice))
    (acc : option string) (u : string) :
  find_device n runtimes acc = Some u →
  acc = Some u ∨ ∃ dev, candidate n runtimes dev ∧ udid dev = u.
Proof.
  revert acc. induction runtimes as [|[rt dl] runtimes IH]; intros acc; simpl.
  - by left.
  - assert (Hlater : ∀ dev, candidate n runtimes dev → candidate n ((rt, dl) :: runtimes) dev).
    { intros dev ((rt' & dl' & Hin & Hdev) & H). split; [|done].
      exists rt', dl'. split; [by right | done]. }
    destruct (scan_device_list n dl) as [u'|] eqn:Hscan.
    + apply scan_device_list_Some in Hscan as (dev & Hin & Hn & Ha & Hu).
      assert (Hdev : candidate n ((rt, dl) :: runtimes) dev).
      { split; [|done]. exists rt, dl. split; [left | done]. }
      destruct (truthy_opt (Some u')).
      * intros [= <-]. right. eauto.
      * intros [[= <-]|(dev' & Hc & Hu')]%IH; right; eauto.
    + destruct (truthy_opt acc); [by left|].
      intros [?|(dev' & Hc & Hu')]%IH; [by left|]. right. eauto.
Qed.

(** X2.  The identifier found for a device name is the [udid] of an entry
    of the listing that has exactly that name and is available: an entry
    that is not available, or has another name, is never chosen. *)
Theorem find_device_sound (n : string) (runtimes : list (string * list SimDevice))
    (u : string) :
  find_device n runtimes None = Some u →
  ∃ rt dl dev,
    (rt, dl) ∈ runtimes ∧ dev ∈ dl ∧
    sim_name dev = n ∧ isAvailable dev = true ∧ udid dev = u.
Proof.
  intros [[=]|(dev & ((rt & dl & Hin & Hdev) & Hn & Ha) & Hu)]%find_device_from.
  by exists rt, dl, dev.
Qed.

Lemma find_device_sound_witness :
  ∃ rt dl dev,
    (rt, dl) ∈ Fixture.simulators ∧ dev ∈ dl ∧
    sim_name dev = "iPhone 15" ∧ isAvailable dev = true ∧ udid dev = "B2".
Proof.
  apply (find_device_sound "iPhone 15" Fixture.simulators "B2"). reflexivity.
Defined.

Lemma find_device_truthy_acc (n : string) (runtimes : list (string * list SimDevice))
    (acc : option string) :
  (∀ dev, candidate n runtimes dev → udid dev ≠ "") →
  (truthy_opt acc = true ∨ ∃ dev, candidate n runtimes dev) →
  truthy_opt (find_device n runtimes acc) = true.
Proof.
  revert acc. induction runtimes as [|[rt dl] runtimes IH]; intros acc Hgood Hex; simpl.
  - destruct Hex as [?|(dev & ((rt & dl & Hin & _) & _))]; [done|].
    by apply elem_of_nil in Hin.
  - assert (Hlater : ∀ dev, candidate n runtimes dev → candidate n ((rt, dl) :: runtimes) dev).
    { intros dev ((rt' & dl' & Hin & Hdev) & H). split; [|done].
      exists rt', dl'. split; [by right | done]. }
    destruct (scan_device_list n dl) as [u'|] eqn:Hscan.
    + apply scan_device_list_Some in Hscan as (dev & Hin & Hn & Ha & Hu).
      assert (Hu' : Str.truthy u' = true).
      { apply truthy_true. rewrite <- Hu. apply Hgood. split; [|done].
        exists rt, dl. split; [left | done]. }
      simpl. by rewrite Hu'.
    + destruct (truthy_opt acc) eqn:Hacc; [done|].
      apply IH; [by auto|]. right.
      destruct Hex as [?|(dev & ((rt' & dl' & Hin & Hdev) & Hn & Ha))]; [done|].
      apply elem_of_cons in Hin as [[= -> ->]|Hin].
      * destruct (scan_device_list_is_Some n dl dev Hdev Hn Ha) as [? H].
        rewrite Hscan in H. discriminate.
      * exists dev. split; [|done]. by exists rt', dl'.
Qed.

(** X3.  When the listing has an available entry of the given name and
    every such entry carries a non-empty [udid], the search finds an
    identifier, and a non-empty one.  (An entry with an empty [udid] ends
    the scan of its runtime without a result, see the example below.) *)
Theorem find_device_complete (n : string) (runtimes : list (string * list SimDevice))
    (rt : string) (dl : list SimDevice) (dev : SimDevice) :
  (rt, dl) ∈ runtimes → dev ∈ dl →
  sim_name dev = n → isAvailable dev = true →
  (∀ rt' dl' dev', (rt', dl') ∈ runtimes → dev' ∈ dl' →
     sim_name dev' = n → isAvailable dev' = true → udid dev' ≠ "") →
  ∃ u, find_device n runtimes None = Some u ∧ u ≠ "".
Proof.
  intros Hin Hdev Hn Ha Hgood.
  assert (H : truthy_opt (find_device n runtimes None) = true).
  { apply find_device_truthy_acc.
    - intros dev' ((rt' & dl' & Hin' & Hdev') & Hn' & Ha'). by eapply Hgood.
    - right. exists dev. split; [|done]. by exists rt, dl. }
  destruct (find_device n runtimes None) as [u|]; [|done].
  exists u. split; [done|]. by apply truthy_true.
Qed.

Lemma find_device_complete_witness :
  ∃ u, find_device "iPad Pro 12.9-inch" Fixture.simulators None = Some u ∧ u ≠ "".
Proof.
  apply (find_device_complete "iPad Pro 12.9-inch" Fixture.simulators
           "com.apple.CoreSimulator.SimRuntime.iOS-17-0"
           [ {| sim_name := "iPhone 15 Pro Max"; isAvailable := true; udid := "A1" |};
             {| sim_name := "iPhone 15"; isAvailable := true; udid := "B2" |};
             {| sim_name := "iPad Pro 12.9-inch"; isAvailable := true; udid := "C3" |} ]
           {| sim_name := "iPad Pro 12.9-inch"; isAvailable := true; udid := "C3" |}).
  - left.
  - right. right. left.
  - reflexivity.
  - reflexivity.
  - intros rt' dl' dev' Hin Hdev _ _.
    apply list_elem_of_singleton in Hin. injection Hin as -> ->.
    repeat (apply elem_of_cons in Hdev as [->|Hdev]); try discriminate.
    by apply elem_of_nil in Hdev.
Defined.

(** A runtime whose first entry of the name has an empty [udid]: the scan
    stops there, and the usable entry after it is not found. *)
Example empty_udid_hides_later_entry :
  find_device "iPhone 15"
    [("iOS-17", [ {| sim_name := "iPhone 15"; isAvailable := true; udid := "" |};
                  {| sim_name := "iPhone 15"; isAvailable := true; udid := "B2" |} ])]
    None = Some "".
Proof. reflexivity. Qed.

(** ** The commands of one device *)

(** The trace from [st] to [st'] ran exactly the commands [l]. *)
Definition ran (l : list Cmd) (st st' : State) : Prop :=
  commands (trace st') = commands (trace st) ++ l.

Lemma ran_app l1 l2 st st1 st2 : ran l1 st st1 → ran l2 st1 st2 → ran (l1 ++ l2) st st2.
Proof. unfold ran. intros H1 H2. by rewrite H2, H1, app_assoc. Qed.

Definition list_command : Cmd := plain ["xcrun"; "simctl"; "list"; "devices"; "-j"].
Definition boot_command (uuid : string) : Cmd := plain ["xcrun"; "simctl"; "boot"; uuid].
Definition open_command : Cmd := plain ["open"; "-a"; "Simulator"].

(** Runs a computation made of the primitive steps on all the answers the
    environment may give. *)
Ltac run_cases :=
  unfold subprocess_run, print, sleep, emit, get_trace, get_out, modify_out,
    raise, mbind, M_bind, mret, M_ret;
  cbn [fst snd out trace add_event set_out];
  repeat case_match; simplify_eq;
  cbn [fst snd out trace add_event set_out].

Ltac ran_solve :=
  unfold ran, commands; cbn [trace add_event set_out]; rewrite ?omap_app; simpl;
  rewrite <- ?app_assoc; simpl; reflexivity.

Ltac ran_prefix :=
  first [ by (exists "", 0%nat; ran_solve)
        | by (exists "", 1%nat; ran_solve)
        | by (eexists _, 2%nat; ran_solve)
        | by (eexists _, 3%nat; ran_solve) ].

Lemma boot_simulator_cases (E : Env) (n : string) (st : State) :
  let r := boot_simulator E n st in
  out r.2 = out st ∧
  match r.1 with
  | Ok (Some u) =>
      u ≠ "" ∧ ran [list_command; boot_command u; open_command] st r.2 ∧
      ∃ p runtimes q,
        respond E (trace st ++ [Print (MBooting n)]) list_command = Returns p ∧
        returncode p = 0 ∧
        json_loads E (stdout p) = inr runtimes ∧
        find_device n runtimes None = Some u ∧
        respond E (trace st ++ [Print (MBooting n); Run list_command])
                (boot_command u) = Returns q ∧
        boot_failed q = false
  | Ok None =>
      ran [list_command] st r.2 ∨ ∃ u, ran [list_command; boot_command u] st r.2
  | Exc _ =>
      ∃ u k, ran (take k [list_command; boot_command u; open_command]) st r.2
  end.
Proof.
  unfold boot_simulator. run_cases.
  all: split; [done|].
  all: try ran_prefix.
  all: try (left; ran_solve).
  all: try (right; eexists; ran_solve).
  match goal with H : _.1 = Ok (Some _) |- _ => simpl in H; injection H as <- end.
  split; [by apply truthy_true|]. split; [ran_solve|].
  match goal with
  | H1 : respond E (trace st ++ _) _ = Returns ?p,
    H2 : respond E (trace (add_event (Run _) _)) _ = Returns ?q |- _ =>
      exists p; eexists; exists q; simpl in H2; rewrite <- app_assoc in H2
  end.
  repeat split; try eassumption.
  match goal with H : negb (_ =? 0) = false |- _ =>
    apply negb_false_iff, Z.eqb_eq in H; exact H end.
Qed.

(** X4.  When [boot_simulator] returns an identifier, the identifier is not
    empty and is the [udid] of an available entry of that name in the
    decoded listing, whose command had exit status 0; the boot command for
    that identifier returned with status 0 or with the already-booted text;
    exactly the listing, the boot and the open command were run, in this
    order; and the output directory was not touched. *)
Theorem boot_simulator_returns_listed_identifier (E : Env) (n : string)
    (st st' : State) (u : string) :
  boot_simulator E n st = (Ok (Some u), st') →
  u ≠ "" ∧
  out st' = out st ∧
  commands (trace st') =
    commands (trace st) ++ [list_command; boot_command u; open_command] ∧
  ∃ p runtimes dev q,
    respond E (trace st ++ [Print (MBooting n)]) list_command = Returns p ∧
    returncode p = 0 ∧
    json_loads E (stdout p) = inr runtimes ∧
    (∃ rt dl, (rt, dl) ∈ runtimes ∧ dev ∈ dl) ∧
    sim_name dev = n ∧ isAvailable dev = true ∧ udid dev = u ∧
    respond E (trace st ++ [Print (MBooting n); Run list_command])
            (boot_command u) = Returns q ∧
    (returncode q = 0 ∨ Str.contains booted_marker (stderr q) = true).
Proof.
  intros Hrun. pose proof (boot_simulator_cases E n st) as [Hout H].
  rewrite Hrun in Hout, H. cbn [fst snd] in *.
  destruct H as (Hne & Hran & p & runtimes & q & Hp & Hrc & Hjson & Hfind & Hq & Hok).
  split; [done|]. split; [done|]. split; [exact Hran|].
  apply find_device_from in Hfind as [[=]|(dev & (Hin & Hn & Ha) & Hu)].
  exists p, runtimes, dev, q. repeat split; try done.
  unfold boot_failed in Hok. apply andb_false_iff in Hok as [Hok|Hok].
  - left. by apply negb_false_iff, Z.eqb_eq in Hok.
  - right. by apply negb_false_iff in Hok.
Qed.

Lemma boot_simulator_returns_listed_identifier_witness :
  ∃ st', boot_simulator Fixture.booted "iPhone 15" (initial Fixture.empty_dir)
         = (Ok (Some "B2"), st') ∧
    out st' = Fixture.empty_dir ∧
    commands (trace st') = [list_command; boot_command "B2"; open_command].
Proof.
  assert (Hrun : boot_simulator Fixture.booted "iPhone 15" (initial Fixture.empty_dir)
                 = (Ok (Some "B2"),
                    (boot_simulator Fixture.booted "iPhone 15"
                       (initial Fixture.empty_dir)).2))
    by (vm_compute; reflexivity).
  eexists. split; [exact Hrun|].
  destruct (boot_simulator_returns_listed_identifier Fixture.booted "iPhone 15"
              (initial Fixture.empty_dir) _ "B2" Hrun) as (_ & Hout & Hcmd & _).
  split; [exact Hout | exact Hcmd].
Defined.

(** Concrete environments for the properties below. *)
Module Scenario.

(** Every command returns with exit status 1. *)
Definition failing : Env :=
  {| respond := λ _ _, Returns (Fixture.exit_1 "error");
     json_loads := λ _, inr Fixture.simulators;
     saved_images := λ _, ∅;
     strftime := λ _, "2024-05-01 12:00:00";
     path_exists := λ _, true |}.


End Scenario.

(** One turn of a loop that runs the commands of a list. *)
Lemma run_commands_cons (E : Env) (c : Cmd) (cmds : list Cmd) (st : State) :
  for_each (c :: cmds) (λ cmd, subprocess_run E cmd ;; mret tt) st =
    match respond E (trace st) c with
    | Returns _ =>
        for_each cmds (λ cmd, subprocess_run E cmd ;; mret tt) (add_event (Run c) st)
    | Raises e => (Exc e, add_event (Run c) st)
    end.
Proof.
  cbn [for_each]. rewrite !bind_run. unfold subprocess_run at 1.
  by destruct (respond E (trace st) c).
Qed.

(** A loop that runs the commands of a list and ignores their results. *)
Lemma run_commands_cases (E : Env) (cmds : list Cmd) (st : State) :
  let r := for_each cmds (λ cmd, subprocess_run E cmd ;; mret tt) st in
  out r.2 = out st ∧
  match r.1 with
  | Ok _ => ran cmds st r.2
  | Exc _ => ∃ k, (1 ≤ k ≤ length cmds)%nat ∧ ran (take k cmds) st r.2
  end.
Proof.
  cbv zeta. revert st. induction cmds as [|c cmds IH]; intros st.
  - split; [done|]. simpl. unfold ran. by rewrite app_nil_r.
  - assert (H1 : ran [c] st (add_event (Run c) st)) by ran_solve.
    rewrite run_commands_cons.
    destruct (respond E (trace st) c) as [e|p]; cbn [fst snd].
    + split; [done|]. exists 1%nat. split; [simpl; lia|]. exact H1.
    + destruct (IH (add_event (Run c) st)) as [Hout H].
      split; [exact Hout|].
      destruct (for_each cmds _ _) as [[[]|e] st']; cbn [fst snd] in *.
      * exact (ran_app [c] cmds _ _ _ H1 H).
      * destruct H as (k & Hk & H). exists (S k). split; [simpl; lia|].
        exact (ran_app [c] (take k cmds) _ _ _ H1 H).
Qed.

Lemma run_commands_return (E : Env) (cmds : list Cmd) (st : State) :
  (∀ t c, c ∈ cmds → ∃ p, respond E t c = Returns p) →
  (for_each cmds (λ cmd, subprocess_run E cmd ;; mret tt) st).1 = Ok tt.
Proof.
  revert st. induction cmds as [|c cmds IH]; intros st Hall; [done|].
  rewrite run_commands_cons.
  destruct (Hall (trace st) c) as [p ->]; [left|].
  apply IH. intros t c' Hc'. apply Hall. by right.
Qed.

Lemma setup_simulator_environment_cases (E : Env) (uuid : string) (st : State) :
  let r := setup_simulator_environment E uuid st in
  out r.2 = out st ∧
  match r.1 with
  | Ok _ => ran (setup_commands uuid) st r.2
  | Exc _ => ∃ k, (1 ≤ k ≤ 4)%nat ∧ ran (take k (setup_commands uuid)) st r.2
  end.
Proof.
  cbv zeta. unfold setup_simulator_environment.
  rewrite bind_run, print_run. cbv beta iota. rewrite bind_run.
  set (st0 := add_event (Print MSettingUp) st).
  destruct (run_commands_cases E (setup_commands uuid) st0) as [Hout H].
  assert (H0 : ∀ l st', ran l st0 st' → ran l st st').
  { intros l st' Hl. unfold ran in *. rewrite Hl. unfold st0, commands. simpl.
    by rewrite omap_app, app_nil_r. }
  destruct (for_each _ _ st0) as [[[]|e] st1]; cbn [fst snd] in *.
  - split; [done|]. apply H0. unfold ran, commands in *. simpl.
    by rewrite omap_app, app_nil_r.
  - split; [done|]. destruct H as (k & Hk & H). exists k. split; [exact Hk|].
    by apply H0.
Qed.

(** X5.  Configuring the simulator is best effort.  The four settings
    commands are run in their fixed order; whenever each of them returns,
    with whatever exit status, the method ends normally after all four.
    Only a command that cannot be run at all stops it: then the commands
    after that one are not run, and the exception leaves the method.  The
    output directory is never touched. *)
Theorem setup_ignores_exit_statuses (E : Env) (uuid : string) (st : State) :
  let r := setup_simulator_environment E uuid st in
  out r.2 = out st ∧
  (r.1 = Ok tt →
     commands (trace r.2) = commands (trace st) ++ setup_commands uuid) ∧
  (∀ e, r.1 = Exc e →
     ∃ k, (1 ≤ k ≤ 4)%nat ∧
       commands (trace r.2) = commands (trace st) ++ take k (setup_commands uuid)) ∧
  ((∀ t c, c ∈ setup_commands uuid → ∃ p, respond E t c = Returns p) →
     r.1 = Ok tt).
Proof.
  pose proof (setup_simulator_environment_cases E uuid st) as [Hout H].
  cbv zeta in *. split; [done|]. split; [|split].
  - intros Hr. by rewrite Hr in H.
  - intros e Hr. by rewrite Hr in H.
  - intros Hall. clear H Hout. unfold setup_simulator_environment.
    rewrite bind_run, print_run. cbv beta iota. rewrite bind_run.
    pose proof (run_commands_return E (setup_commands uuid)
                  (add_event (Print MSettingUp) st) Hall) as H.
    by destruct (for_each _ _ _) as [[[]|e] st1].
Qed.

Lemma setup_ignores_exit_statuses_witness :
  (setup_simulator_environment Scenario.failing "B2" (initial Fixture.empty_dir)).1
    = Ok tt.
Proof.
  destruct (setup_ignores_exit_statuses Scenario.failing "B2"
              (initial Fixture.empty_dir)) as (_ & _ & _ & H).
  apply H. intros t c _. by exists (Fixture.exit_1 "error").
Defined.

Section InstallAndCapture.

Variable E : Env.
Variables project_path scheme : string.

Lemma install_app_to_simulator_cases (uuid : string) (st : State) :
  let r := install_app_to_simulator E project_path scheme uuid st in
  let build := xcodebuild project_path scheme uuid "build" in
  let inst := xcodebuild project_path scheme uuid "install" in
  let t1 := trace st ++ [Print MInstalling] in
  let t2 := trace st ++ [Print MInstalling; Run build] in
  out r.2 = out st ∧
  match r.1 with
  | Ok true =>
      ran [build; inst] st r.2 ∧
      ∃ p1 p2, respond E t1 build = Returns p1 ∧ returncode p1 = 0 ∧
               respond E t2 inst = Returns p2 ∧ returncode p2 = 0
  | Ok false =>
      (ran [build] st r.2 ∧
       ∃ p1, respond E t1 build = Returns p1 ∧ returncode p1 ≠ 0) ∨
      (ran [build; inst] st r.2 ∧
       ∃ p1 p2, respond E t1 build = Returns p1 ∧ returncode p1 = 0 ∧
                respond E t2 inst = Returns p2 ∧ returncode p2 ≠ 0)
  | Exc e =>
      (ran [build] st r.2 ∧ respond E t1 build = Raises e) ∨
      (ran [build; inst] st r.2 ∧
       ∃ p1, respond E t1 build = Returns p1 ∧ returncode p1 = 0 ∧
             respond E t2 inst = Raises e)
  end.
Proof.
  unfold install_app_to_simulator. run_cases.
  all: cbn [fst snd] in *; simplify_eq.
  all: split; [done|].
  all: repeat match goal with
         | H : respond E (trace (add_event _ _)) _ = _ |- _ =>
             simpl in H; rewrite <- app_assoc in H; simpl in H
         | H : negb (_ =? 0) = false |- _ => apply negb_false_iff, Z.eqb_eq in H
         | H : negb (_ =? 0) = true |- _ => apply negb_true_iff, Z.eqb_neq in H
         end.
  - left. split; [ran_solve | done].
  - left. split; [ran_solve | eauto].
  - right. split; [ran_solve | eauto 10].
  - right. split; [ran_solve | eauto 10].
  - split; [ran_solve | eauto 10].
Qed.

(** X6.  Installing leaves the output directory alone.  It returns [True]
    exactly when the build command and then the install command both
    returned with exit status 0; the install command is run only after a
    build that returned with status 0, so a failed build ends the method
    with [False] after one command. *)
Theorem install_needs_build_and_install (uuid : string) (st : State) :
  let r := install_app_to_simulator E project_path scheme uuid st in
  let build := xcodebuild project_path scheme uuid "build" in
  let inst := xcodebuild project_path scheme uuid "install" in
  let t1 := trace st ++ [Print MInstalling] in
  let t2 := trace st ++ [Print MInstalling; Run build] in
  out r.2 = out st ∧
  (r.1 = Ok true ↔
     ∃ p1 p2, respond E t1 build = Returns p1 ∧ returncode p1 = 0 ∧
              respond E t2 inst = Returns p2 ∧ returncode p2 = 0) ∧
  ∃ l, commands (trace r.2) = commands (trace st) ++ l ∧
       l `prefix_of` [build; inst] ∧
       (In inst l → ∃ p1, respond E t1 build = Returns p1 ∧ returncode p1 = 0) ∧
       (∀ p1, respond E t1 build = Returns p1 → returncode p1 ≠ 0 →
              r.1 = Ok false ∧ l = [build]).
Proof.
  pose proof (install_app_to_simulator_cases uuid st) as [Hout H].
  cbv zeta in *. split; [done|].
  set (build := xcodebuild project_path scheme uuid "build") in *.
  set (inst := xcodebuild project_path scheme uuid "install") in *.
  assert (Hdiff : inst ≠ build) by (unfold inst, build, xcodebuild, plain; congruence).
  destruct (install_app_to_simulator E project_path scheme uuid st) as [[[|]|e] st'];
    cbn [fst snd] in *.
  - destruct H as (Hran & p1 & p2 & H1 & Hrc1 & H2 & Hrc2). split.
    + split; [eauto 10 | done].
    + exists [build; inst]. split; [exact Hran|]. split; [done|]. split; [eauto|].
      intros p1' H1' Hrc1'. congruence.
  - split.
    + split; [done|]. intros (p1 & p2 & H1 & Hrc1 & H2 & Hrc2).
      destruct H as [(_ & p1' & H1' & Hrc1')|(_ & p1' & p2' & H1' & _ & H2' & Hrc2')];
        congruence.
    + destruct H as [(Hran & p1 & H1 & Hrc1)|(Hran & p1 & p2 & H1 & Hrc1 & H2 & Hrc2)].
      * exists [build]. split; [exact Hran|]. split; [by exists [inst]|]. split.
        -- intros [?|[]]. congruence.
        -- done.
      * exists [build; inst]. split; [exact Hran|]. split; [done|]. split; [eauto|].
        intros p1' H1' Hrc1'. congruence.
  - split.
    + split; [done|]. intros (p1 & p2 & H1 & Hrc1 & H2 & Hrc2).
      destruct H as [(_ & H1')|(_ & p1' & H1' & _ & H2')]; congruence.
    + destruct H as [(Hran & H1)|(Hran & p1 & H1 & Hrc1 & H2)].
      * exists [build]. split; [exact Hran|]. split; [by exists [inst]|]. split.
        -- intros [?|[]]. congruence.
        -- intros p1' H1' _. congruence.
      * exists [build; inst]. split; [exact Hran|]. split; [done|]. split; [eauto|].
        intros p1' H1' Hrc1'. congruence.
Qed.

Lemma run_screenshot_tests_cases (uuid : string) (cfg : DeviceConfig) (st : State) :
  let r := run_screenshot_tests E project_path scheme uuid cfg st in
  let cmd := test_command project_path scheme uuid cfg in
  let t1 := trace st ++ [Print (MCapturing (simulator cfg))] in
  ran [cmd] st r.2 ∧
  match r.1 with
  | Ok b =>
      b = true ∧
      out r.2 = save_images (saved_images E (t1 ++ [Run cmd])) (out st) ∧
      ∃ p, respond E t1 cmd = Returns p
  | Exc e => out r.2 = out st ∧ respond E t1 cmd = Raises e
  end.
Proof.
  unfold run_screenshot_tests. run_cases.
  all: cbn [fst snd] in *; simplify_eq.
  all: split; [ran_solve|].
  all: eauto.
Qed.


End InstallAndCapture.

Lemma install_needs_build_and_install_witness :
  (install_app_to_simulator Scenario.failing "." "OneBox" "B2"
     (initial Fixture.empty_dir)).1 = Ok false ∧
  commands (trace (install_app_to_simulator Scenario.failing "." "OneBox" "B2"
                     (initial Fixture.empty_dir)).2)
    = [xcodebuild "." "OneBox" "B2" "build"].
Proof.
  destruct (install_needs_build_and_install Scenario.failing "." "OneBox" "B2"
              (initial Fixture.empty_dir))
    as (_ & _ & l & Hl & _ & _ & Hfail).
  destruct (Hfail (Fixture.exit_1 "error") eq_refl) as [Hr ->]; [discriminate|].
  split; [exact Hr | exact Hl].
Defined.


Definition is_print (e : Event) : Prop :=
  match e with
  | Print _ => True
  | _ => False
  end.

Lemma organize_screenshots_prints_only (cfg : DeviceConfig) :
  stable (emits is_print) (organize_screenshots cfg).
Proof. unfold organize_screenshots, print. stable_steps; emits_side. Qed.

Lemma commands_of_prints (l : list Event) : Forall is_print l → commands l = [].
Proof. induction 1 as [|e l He _ IH]; [done|]. by destruct e. Qed.

Lemma emits_is_print_ran st st' : emits is_print st st' → ran [] st st'.
Proof.
  intros (new & Ht & Hnew). unfold ran, commands. rewrite Ht, omap_app.
  f_equal. by apply commands_of_prints.
Qed.

Section DeviceCommands.

Variable E : Env.
Variables project_path scheme : string.

(** The commands of a device that runs through all its steps. *)
Definition device_commands (uuid : string) (cfg : DeviceConfig) : list Cmd :=
  [list_command; boot_command uuid; open_command] ++
  setup_commands uuid ++
  [xcodebuild project_path scheme uuid "build";
   xcodebuild project_path scheme uuid "install"] ++
  [test_command project_path scheme uuid cfg].

Lemma process_device_cases (c : nat) (n : string) (cfg : DeviceConfig) (st : State) :
  let r := process_device E project_path scheme c n cfg st in
  ∃ uuid l,
    ran l st r.2 ∧ l `prefix_of` device_commands uuid cfg ∧
    match r.1 with
    | Ok c' =>
        (c' = c ∧ out r.2 = out st) ∨
        (c' = S c ∧ uuid ≠ "" ∧ l = device_commands uuid cfg ∧
         is_Some (folders (out r.2) !! folder_name cfg))
    | Exc _ => out r.2 = out st
    end.
Proof.
  cbv zeta. unfold process_device. rewrite bind_run.
  pose proof (boot_simulator_cases E n st) as [Hout1 H1]. cbv zeta in H1.
  destruct (boot_simulator E n st) as [[[u|]|e] st1]; cbn [fst snd] in *.
  3:{ destruct H1 as (u & k & Hran). exists u; eexists. split; [exact Hran|].
      split; [|done]. unfold device_commands. apply prefix_app_r, prefix_take. }
  2:{ destruct H1 as [Hran|[u Hran]].
      - exists ""; eexists. split; [exact Hran|]. split; [|by left].
        unfold device_commands. simpl. apply prefix_cons, prefix_nil.
      - exists u; eexists. split; [exact Hran|]. split; [|by left].
        unfold device_commands. simpl. do 2 apply prefix_cons. apply prefix_nil. }
  destruct H1 as (Hne & Hran1 & _). rewrite (proj2 (truthy_true u) Hne).
  rewrite bind_run.
  pose proof (setup_simulator_environment_cases E u st1) as [Hout2 H2]. cbv zeta in H2.
  destruct (setup_simulator_environment E u st1) as [[[]|e] st2]; cbn [fst snd] in *.
  2:{ destruct H2 as (k & _ & Hran2). exists u; eexists.
      split; [exact (ran_app _ _ _ _ _ Hran1 Hran2)|].
      split; [|congruence]. unfold device_commands.
      apply prefix_app, prefix_app_r, prefix_take. }
  rewrite bind_run.
  pose proof (install_app_to_simulator_cases E project_path scheme u st2) as [Hout3 H3].
  cbv zeta in H3.
  destruct (install_app_to_simulator E project_path scheme u st2) as [[[|]|e] st3];
    cbn [fst snd negb] in *.
  3:{ exists u.
      destruct H3 as [(Hran3 & _)|(Hran3 & _)]; eexists;
        (split; [exact (ran_app _ _ _ _ _ Hran1 (ran_app _ _ _ _ _ H2 Hran3))|]);
        (split; [|congruence]); unfold device_commands;
        apply prefix_app, prefix_app, prefix_app_r.
      - by exists [xcodebuild project_path scheme u "install"].
      - done. }
  2:{ unfold mret, M_ret. cbn [fst snd]. exists u.
      destruct H3 as [(Hran3 & _)|(Hran3 & _)]; eexists;
        (split; [exact (ran_app _ _ _ _ _ Hran1 (ran_app _ _ _ _ _ H2 Hran3))|]);
        (split; [|left; split; [done | congruence]]); unfold device_commands;
        apply prefix_app, prefix_app, prefix_app_r.
      - by exists [xcodebuild project_path scheme u "install"].
      - done. }
  destruct H3 as (Hran3 & _). rewrite bind_run.
  pose proof (run_screenshot_tests_cases E project_path scheme u cfg st3) as [Hran4 H4].
  cbv zeta in H4.
  assert (Hran : ran (device_commands u cfg) st
                   (run_screenshot_tests E project_path scheme u cfg st3).2).
  { unfold device_commands.
    exact (ran_app _ _ _ _ _ Hran1
             (ran_app _ _ _ _ _ H2 (ran_app _ _ _ _ _ Hran3 Hran4))). }
  destruct (run_screenshot_tests E project_path scheme u cfg st3) as [[b|e] st4];
    cbn [fst snd] in *.
  2:{ destruct H4 as [Hout4 _]. exists u; eexists. split; [exact Hran|].
      split; [done | congruence]. }
  destruct H4 as (-> & Hout4 & _). cbn [negb]. rewrite bind_run.
  destruct (organize_screenshots_run cfg st4) as (st5 & Hrun5 & _ & (dir & Hdir & _) & _).
  pose proof (organize_screenshots_prints_only cfg st4) as Hprint.
  rewrite Hrun5 in Hprint |- *. cbn [snd] in Hprint. cbv beta iota.
  rewrite bind_run, print_run. cbv beta iota. unfold mret, M_ret. cbn [fst snd].
  exists u, (device_commands u cfg). split; [|split; [done|]].
  - rewrite <- (app_nil_r (device_commands u cfg)).
    eapply ran_app; [exact Hran|]. eapply ran_app with (l1 := []).
    + by apply emits_is_print_ran.
    + ran_solve.
  - right. split; [lia|]. split; [done|]. split; [done|].
    cbn [out add_event]. rewrite Hdir. eauto.
Qed.

(** X8.  The commands of one device.  Whatever the tools answer, the
    commands run in the [try] block of a device are an initial part of one
    fixed sequence for one simulator identifier: list, boot, open, the four
    settings commands, build, install, test.  A later command is never run
    without all the earlier ones, and no command is run twice.  A device
    that is counted as completed has run the whole sequence, for an
    identifier that is not empty. *)
Theorem device_commands_in_order (c : nat) (n : string) (cfg : DeviceConfig)
    (st : State) :
  let r := process_device E project_path scheme c n cfg st in
  ∃ uuid l,
    commands (trace r.2) = commands (trace st) ++ l ∧
    l `prefix_of` device_commands uuid cfg ∧
    (r.1 = Ok (S c) → uuid ≠ "" ∧ l = device_commands uuid cfg).
Proof.
  destruct (process_device_cases c n cfg st) as (uuid & l & Hran & Hpre & H).
  cbv zeta. exists uuid, l. split; [exact Hran|]. split; [done|].
  intros Hr. rewrite Hr in H. destruct H as [[? _]|(_ & ? & ? & _)]; [lia | done].
Qed.


End DeviceCommands.

(** ** The devices a run completes *)

(** The devices whose completion message is in a trace, in the order of
    the messages. *)
Definition completed_names (t : list Event) : list string :=
  omap (λ e, match e with Print (MCompleted n) => Some n | _ => None end) t.

Lemma completed_names_app t1 t2 :
  completed_names (t1 ++ t2) = completed_names t1 ++ completed_names t2.
Proof. apply omap_app. Qed.

Lemma completed_names_quiet n cfg (l : list Event) :
  Forall (step_event n cfg) l → completed_names l = [].
Proof.
  induction 1 as [|e l [_ He] _ IH]; [done|].
  destruct e as [m| |]; try exact IH. destruct m; try exact IH.
  by destruct (He device_name).
Qed.

Lemma completed_names_frame (l : list Event) :
  Forall frame_event l → completed_names l = [].
Proof. induction 1 as [|e l He _ IH]; [done|]. by destruct e as [[]| |]. Qed.


(** Folders that exist stay. *)
Definition folders_stay : relation State := λ st st',
  ∀ d, is_Some (folders (out st) !! d) → is_Some (folders (out st') !! d).

Section CompletedDevices.

Variable E : Env.
Variables project_path scheme : string.

Lemma device_iteration_nonpng_kept total c n cfg :
  stable nonpng_kept (device_iteration E project_path scheme total c (n, cfg)).
Proof. unfold_driver. stable_steps; nonpng_side. Qed.

Lemma device_loop_folders_stay total (devs : list (string * DeviceConfig)) c st :
  folders_stay st (for_fold devs c (device_iteration E project_path scheme total) st).2.
Proof.
  assert (H : stable nonpng_kept
                (for_fold devs c (device_iteration E project_path scheme total))).
  { apply stable_for_fold; [typeclasses eauto|].
    intros s [n cfg] _. apply device_iteration_nonpng_kept. }
  intros d. apply (H st).
Qed.

Lemma device_iteration_cases total c n cfg st :
  ∃ c' st' new,
    device_iteration E project_path scheme total c (n, cfg) st = (Ok c', st') ∧
    trace st' = trace st ++ new ∧
    ((c' = c ∧ completed_names new = [] ∧ out st' = out st) ∨
     (c' = S c ∧ completed_names new = [n] ∧
      is_Some (folders (out st') !! folder_name cfg))).
Proof.
  unfold device_iteration. rewrite bind_run, print_run. cbv beta iota.
  cbn [fst snd]. unfold try_except. set (st0 := add_event _ st).
  pose proof (process_device_result E project_path scheme c n cfg st0)
    as (new & Ht & Hr).
  destruct (process_device_cases E project_path scheme c n cfg st0)
    as (uuid & l & _ & _ & H).
  cbv zeta in H.
  destruct (process_device _ _ _ _ _ _ st0) as [[c'|e] st1]; cbn [fst snd] in *.
  - exists c', st1, (Print (MProcessing n (c + 1) total) :: new).
    split; [done|].
    split; [rewrite Ht; unfold st0; simpl; by rewrite <- app_assoc|].
    destruct H as [[-> Hout]|(-> & _ & _ & Hdir)];
      destruct Hr as [[Hc F]|[Hc (pre & -> & F)]]; try lia.
    + left. split; [done|]. split; [|done]. simpl.
      by apply (completed_names_quiet n cfg).
    + right. split; [done|]. split; [|done].
      change (completed_names (pre ++ [Print (MCompleted n)]) = [n]).
      by rewrite completed_names_app, (completed_names_quiet n cfg).
  - exists c, (add_event (Print (MFailed n e)) st1),
      (Print (MProcessing n (c + 1) total) :: new ++ [Print (MFailed n e)]).
    split; [done|].
    split; [simpl; rewrite Ht; unfold st0; simpl; by rewrite <- !app_assoc|].
    left. split; [done|]. split; [|done].
    change (completed_names (new ++ [Print (MFailed n e)]) = []).
    by rewrite completed_names_app, (completed_names_quiet n cfg).
Qed.

Lemma device_loop_cases total (devs : list (string * DeviceConfig)) c st :
  NoDup devs.*1 →
  ∃ c' st' new,
    for_fold devs c (device_iteration E project_path scheme total) st = (Ok c', st') ∧
    trace st' = trace st ++ new ∧
    c' = (c + length (completed_names new))%nat ∧
    completed_names new `sublist_of` devs.*1 ∧
    (∀ n cfg, (n, cfg) ∈ devs → n ∈ completed_names new →
       is_Some (folders (out st') !! folder_name cfg)) ∧
    (completed_names new = [] → out st' = out st).
Proof.
  revert c st. induction devs as [|[n cfg] devs IH]; intros c st Hnd; simpl.
  - exists c, st, []. rewrite app_nil_r. repeat split; try done; try lia.
    intros n cfg Hin. by apply elem_of_nil in Hin.
  - apply NoDup_cons in Hnd as [Hn Hnd].
    destruct (device_iteration_cases total c n cfg st)
      as (c1 & st1 & new1 & Hrun1 & Ht1 & H1).
    destruct (IH c1 st1 Hnd)
      as (c' & st' & new2 & Hrun2 & Ht2 & Hc2 & Hsub2 & Hdir2 & Hout2).
    pose proof (device_loop_folders_stay total devs c1 st1) as Hstay.
    rewrite Hrun2 in Hstay. cbn [snd] in Hstay.
    exists c', st', (new1 ++ new2). rewrite bind_run, Hrun1.
    split; [done|]. split; [by rewrite Ht2, Ht1, app_assoc|].
    rewrite completed_names_app.
    destruct H1 as [(-> & Hnone & Hout1)|(-> & Hone & Hdir1)].
    + rewrite Hnone. simpl. split; [done|]. split; [by apply sublist_cons|].
      split; [|intros Hnil; by rewrite Hout2, Hout1].
      intros m cfg' [[= -> ->]|Hin]%elem_of_cons Hm.
      * exfalso. apply Hn. by eapply elem_of_sublist.
      * by apply (Hdir2 m cfg').
    + rewrite Hone. simpl. split; [lia|]. split; [by apply sublist_skip|].
      split; [|done].
      intros m cfg' [[= -> ->]|Hin]%elem_of_cons Hm.
      * by apply Hstay.
      * apply (Hdir2 m cfg' Hin).
        apply elem_of_cons in Hm as [->|Hm]; [|done].
        exfalso. apply Hn. apply list_elem_of_fmap. by exists (n, cfg').
Qed.

End CompletedDevices.

(** ** The summary of a run *)




Section RunSummary.

Variable E : Env.
Variables project_path scheme : string.



End RunSummary.


(** ** The directory after a run *)

Lemma completed_names_run_trace (project_path : string)
    (clean : bool) (o : OutputDir) (new : list Event) (c total : nat) :
  completed_names ((trace (prologue clean (initial o)) ++ new)
                   ++ epilogue project_path c total)
  = completed_names new.
Proof.
  rewrite !completed_names_app.
  rewrite (completed_names_frame _ (epilogue_frame project_path c total)).
  destruct clean; simpl; by rewrite app_nil_r.
Qed.

Lemma manifest_file_not_png : is_png manifest_file = false.
Proof. by vm_compute. Qed.

Section RunDirectory.

Variable E : Env.
Variables project_path scheme : string.



End RunDirectory.



(** ** The numbering of the progress lines *)

(** Every progress line of [t] shows [total] and one more than the number
    of completion messages before it, [c] of them lying before [t]. *)
Fixpoint well_numbered (total c : nat) (t : list Event) : Prop :=
  match t with
  | [] => True
  | Print (MProcessing _ i tot) :: t' =>
      i = S c ∧ tot = total ∧ well_numbered total c t'
  | Print (MCompleted _) :: t' => well_numbered total (S c) t'
  | _ :: t' => well_numbered total c t'
  end.

Lemma well_numbered_app total c (t1 t2 : list Event) :
  well_numbered total c (t1 ++ t2) ↔
  well_numbered total c t1 ∧
  well_numbered total (c + length (completed_names t1)) t2.
Proof.
  revert c. induction t1 as [|e t1 IH]; intros c; simpl.
  - rewrite Nat.add_0_r. tauto.
  - destruct e as [m| |]; try apply IH.
    destruct m; try apply IH.
    + rewrite IH. tauto.
    + rewrite IH. simpl. by rewrite Nat.add_succ_r.
Qed.

Lemma well_numbered_body total c n cfg (l : list Event) :
  Forall (body_event n cfg) l → well_numbered total c l.
Proof.
  intros H. revert c. induction H as [|e l He _ IH]; intros c; simpl; [done|].
  destruct e as [m| |]; try apply IH. destruct m; try apply IH.
  exfalso. by destruct He as [[]|(? & [=])].
Qed.

Lemma well_numbered_frame total c (l : list Event) :
  Forall frame_event l → well_numbered total c l.
Proof.
  intros H. revert c. induction H as [|e l He _ IH]; intros c; simpl; [done|].
  destruct e as [m| |]; try apply IH. by destruct m; try apply IH.
Qed.

Section Numbering.

Variable E : Env.
Variables project_path scheme : string.

Lemma device_iteration_numbered total c n cfg st :
  ∃ c' st' new,
    device_iteration E project_path scheme total c (n, cfg) st = (Ok c', st') ∧
    trace st' = trace st ++ new ∧
    c' = (c + length (completed_names new))%nat ∧
    well_numbered total c new.
Proof.
  destruct (device_iteration_cases E project_path scheme total c n cfg st)
    as (c' & st' & new & Hrun & Ht & H).
  destruct (device_iteration_trace E project_path scheme total c n cfg st)
    as (c2 & st2 & body & Hrun2 & Ht2 & Hb & _).
  rewrite Hrun in Hrun2. injection Hrun2 as <- <-.
  rewrite Ht in Ht2. apply app_inv_head in Ht2. subst new.
  exists c', st'. eexists. split; [done|]. split; [done|]. split.
  - destruct H as [(-> & -> & _)|(-> & -> & _)]; simpl; lia.
  - simpl. split; [lia|]. split; [done|]. by apply (well_numbered_body _ _ n cfg).
Qed.

Lemma device_loop_numbered total (devs : list (string * DeviceConfig)) c st :
  ∃ c' st' new,
    for_fold devs c (device_iteration E project_path scheme total) st = (Ok c', st') ∧
    trace st' = trace st ++ new ∧
    well_numbered total c new.
Proof.
  revert c st. induction devs as [|[n cfg] devs IH]; intros c st; simpl.
  - exists c, st, []. by rewrite app_nil_r.
  - destruct (device_iteration_numbered total c n cfg st)
      as (c1 & st1 & new1 & Hrun1 & Ht1 & Hc1 & Hn1).
    destruct (IH c1 st1) as (c' & st' & new2 & Hrun2 & Ht2 & Hn2).
    exists c', st', (new1 ++ new2). rewrite bind_run, Hrun1.
    split; [done|]. split; [by rewrite Ht2, Ht1, app_assoc|].
    apply well_numbered_app. by rewrite <- Hc1.
Qed.

(** X13.  The numbering of the progress lines.  The progress line of a
    device shows the number of selected devices and, as the index of the
    device, one more than the number of devices completed before it, not
    the position of the device in the selection: after a device that was
    skipped, the next device is announced under the same index. *)
Theorem progress_lines_count_completed_devices (clean : bool)
    (sd : option string) (devs : list (string * DeviceConfig)) (o : OutputDir) :
  devices_to_process sd = Some devs →
  let st := (generate_all_screenshots E project_path scheme clean sd (initial o)).2 in
  ∀ pre post n i total,
    trace st = pre ++ Print (MProcessing n i total) :: post →
    i = S (length (completed_names pre)) ∧ total = length devs.
Proof.
  intros Hsel. cbv zeta.
  destruct (device_loop_numbered (length devs) devs 0 (prologue clean (initial o)))
    as (c & st2 & new & Hloop & Ht & Hnum).
  rewrite (generate_all_screenshots_run _ _ _ _ _ _ _ _ _ Hsel Hloop).
  cbn [snd trace]. rewrite Ht.
  assert (Hall : well_numbered (length devs) 0
                   ((trace (prologue clean (initial o)) ++ new)
                    ++ epilogue project_path c (length devs))).
  { apply well_numbered_app. split.
    - apply well_numbered_app. split.
      + destruct (prologue_frame clean o) as (p & -> & Fp).
        by apply well_numbered_frame.
      + assert (Hpre : completed_names (trace (prologue clean (initial o))) = [])
          by (by destruct clean).
        by rewrite Hpre.
    - apply well_numbered_frame, epilogue_frame. }
  intros pre post n i total Heq. rewrite Heq in Hall.
  apply well_numbered_app in Hall as [_ Hall]. simpl in Hall. tauto.
Qed.

End Numbering.

Lemma progress_lines_count_completed_devices_witness :
  let t := trace (generate_all_screenshots Fixture.bare "." "OneBox" false None
                    (initial Fixture.empty_dir)).2 in
  t = take 5 t ++ Print (MProcessing "iPhone 15" 1 3) :: drop 6 t ∧
  (1 = S (length (completed_names (take 5 t))) ∧ 3 = length SCREENSHOT_DEVICES)%nat.
Proof.
  cbv zeta.
  assert (Ht : trace (generate_all_screenshots Fixture.bare "." "OneBox" false None
                        (initial Fixture.empty_dir)).2
               = take 5 (trace (generate_all_screenshots Fixture.bare "." "OneBox"
                                  false None (initial Fixture.empty_dir)).2)
                 ++ Print (MProcessing "iPhone 15" 1 3)
                 :: drop 6 (trace (generate_all_screenshots Fixture.bare "." "OneBox"
                                     false None (initial Fixture.empty_dir)).2))
    by (vm_compute; reflexivity).
  split; [exact Ht|].
  exact (progress_lines_count_completed_devices Fixture.bare "." "OneBox" false None
           SCREENSHOT_DEVICES Fixture.empty_dir eq_refl _ _ _ _ _ Ht).
Defined.

(** ** A run in which every tool does its work *)

(** Every command returns with exit status 0. *)
Definition tools_succeed (E : Env) : Prop :=
  ∀ t c, ∃ p, respond E t c = Returns p ∧ returncode p = 0.


Section Cooperative.

Variable E : Env.
Variables project_path scheme : string.
Hypothesis tools : tools_succeed E.









End Cooperative.


(** ** The tests on file names *)












(** ** Organize, again *)






(** ** The fixed delays *)

(** The seconds of the [time.sleep] calls of a trace, in their order. *)
Definition sleeps (t : list Event) : list nat :=
  omap (λ e, match e with Sleep n => Some n | _ => None end) t.

(** The trace from [st] to [st'] slept exactly the delays [l]. *)
Definition slept (l : list nat) (st st' : State) : Prop :=
  sleeps (trace st') = sleeps (trace st) ++ l.

Definition no_sleep (e : Event) : Prop := ∀ n, e ≠ Sleep n.

Lemma slept_app l1 l2 st st1 st2 :
  slept l1 st st1 → slept l2 st1 st2 → slept (l1 ++ l2) st st2.
Proof. unfold slept. intros H1 H2. by rewrite H2, H1, app_assoc. Qed.

Lemma sleeps_no_sleep (l : list Event) : Forall no_sleep l → sleeps l = [].
Proof.
  induction 1 as [|e l He _ IH]; [done|].
  destruct e as [| |n]; try exact IH. by destruct (He n).
Qed.

Lemma emits_no_sleep_slept st st' : emits no_sleep st st' → slept [] st st'.
Proof.
  intros (new & Ht & Hnew). unfold slept, sleeps. rewrite Ht, omap_app.
  f_equal. by apply sleeps_no_sleep.
Qed.

Ltac no_sleep_side :=
  first [ apply emits_set_out | apply emits_add_event; by intros ? ].

Ltac slept_solve :=
  unfold slept, sleeps, sleep, print, emit; cbn [fst snd trace add_event set_out];
  rewrite ?omap_app; simpl;
  rewrite <- ?app_assoc; simpl; reflexivity.

Section Delays.

Variable E : Env.
Variables project_path scheme : string.

Lemma boot_simulator_sleeps (n : string) (st : State) :
  let r := boot_simulator E n st in
  match r.1 with
  | Ok (Some _) => slept [5; 2]%nat st r.2
  | Ok None => slept [] st r.2
  | Exc _ => slept [] st r.2 ∨ slept [5%nat] st r.2
  end.
Proof.
  unfold boot_simulator. run_cases.
  all: first [ by slept_solve | by (left; slept_solve) | by (right; slept_solve) ].
Qed.

Lemma setup_simulator_environment_sleeps (u : string) (st : State) :
  let r := setup_simulator_environment E u st in
  match r.1 with
  | Ok _ => slept [3%nat] st r.2
  | Exc _ => slept [] st r.2
  end.
Proof.
  cbv zeta. unfold setup_simulator_environment.
  rewrite bind_run, print_run. cbv beta iota. rewrite bind_run.
  set (st0 := add_event (Print MSettingUp) st).
  assert (H : stable (emits no_sleep)
                (for_each (setup_commands u) (λ cmd, subprocess_run E cmd ;; mret tt)))
    by (stable_steps; no_sleep_side).
  specialize (H st0). apply emits_no_sleep_slept in H.
  assert (H0 : slept [] st st0) by (unfold st0; slept_solve).
  destruct (for_each _ _ st0) as [[[]|e] st1]; cbn [fst snd] in *.
  - apply (slept_app [] [3%nat] st st1); [exact (slept_app [] [] _ _ _ H0 H)|].
    slept_solve.
  - exact (slept_app [] [] _ _ _ H0 H).
Qed.

Lemma install_app_to_simulator_no_sleep (u : string) :
  stable (emits no_sleep) (install_app_to_simulator E project_path scheme u).
Proof. unfold install_app_to_simulator, print. stable_steps; no_sleep_side. Qed.

Lemma run_screenshot_tests_no_sleep (u : string) (cfg : DeviceConfig) :
  stable (emits no_sleep) (run_screenshot_tests E project_path scheme u cfg).
Proof. unfold run_screenshot_tests, print. stable_steps; no_sleep_side. Qed.

Lemma organize_screenshots_no_sleep (cfg : DeviceConfig) :
  stable (emits no_sleep) (organize_screenshots cfg).
Proof. unfold organize_screenshots, print. stable_steps; no_sleep_side. Qed.

Lemma process_device_sleeps (c : nat) (n : string) (cfg : DeviceConfig) (st : State) :
  let r := process_device E project_path scheme c n cfg st in
  ∃ l, slept l st r.2 ∧ l `prefix_of` [5; 2; 3]%nat ∧
       (r.1 = Ok (S c) → l = [5; 2; 3]%nat).
Proof.
  cbv zeta. unfold process_device. rewrite bind_run.
  pose proof (boot_simulator_sleeps n st) as H1. cbv zeta in H1.
  destruct (boot_simulator E n st) as [[[u|]|e] st1]; cbn [fst snd] in *.
  3:{ destruct H1 as [H1|H1]; eexists; (split; [exact H1|]); split; try done.
      - apply prefix_nil.
      - by exists [2; 3]%nat. }
  2:{ exists []. split; [exact H1|]. split; [apply prefix_nil|].
      unfold mret, M_ret. cbn [fst]. intros [=]. lia. }
  destruct (Str.truthy u).
  2:{ exists [5; 2]%nat. split; [exact H1|]. split; [by exists [3%nat]|].
      unfold mret, M_ret. cbn [fst]. intros [=]. lia. }
  rewrite bind_run.
  pose proof (setup_simulator_environment_sleeps u st1) as H2. cbv zeta in H2.
  destruct (setup_simulator_environment E u st1) as [[[]|e] st2]; cbn [fst snd] in *.
  2:{ exists [5; 2]%nat. split; [exact (slept_app _ [] _ _ _ H1 H2)|].
      split; [by exists [3%nat] | done]. }
  pose proof (slept_app _ _ _ _ _ H1 H2) as H12. simpl in H12.
  rewrite bind_run.
  pose proof (install_app_to_simulator_no_sleep u st2) as H3.
  apply emits_no_sleep_slept in H3.
  pose proof (slept_app _ _ _ _ _ H12 H3) as H123. simpl in H123.
  destruct (install_app_to_simulator E project_path scheme u st2) as [[b|e] st3];
    cbn [fst snd] in *.
  2:{ exists [5; 2; 3]%nat. by split. }
  destruct b; cbn [negb].
  2:{ exists [5; 2; 3]%nat. by split. }
  rewrite bind_run.
  pose proof (run_screenshot_tests_no_sleep u cfg st3) as H4.
  apply emits_no_sleep_slept in H4.
  pose proof (slept_app _ _ _ _ _ H123 H4) as H1234. simpl in H1234.
  destruct (run_screenshot_tests E project_path scheme u cfg st3) as [[b|e] st4];
    cbn [fst snd] in *.
  2:{ exists [5; 2; 3]%nat. by split. }
  destruct b; cbn [negb].
  2:{ exists [5; 2; 3]%nat. by split. }
  rewrite bind_run.
  pose proof (organize_screenshots_no_sleep cfg st4) as H5.
  apply emits_no_sleep_slept in H5.
  pose proof (slept_app _ _ _ _ _ H1234 H5) as H12345. simpl in H12345.
  destruct (organize_screenshots cfg st4) as [[[]|e] st5]; cbn [fst snd] in *.
  2:{ exists [5; 2; 3]%nat. by split. }
  rewrite bind_run, print_run. cbv beta iota. unfold mret, M_ret. cbn [fst snd].
  exists [5; 2; 3]%nat. split; [|done].
  apply (slept_app _ [] _ _ _ H12345). slept_solve.
Qed.

Lemma device_iteration_delays total c n cfg st :
  ∃ c' st' new,
    device_iteration E project_path scheme total c (n, cfg) st = (Ok c', st') ∧
    trace st' = trace st ++ new ∧
    (length (completed_names new) ≤ 1)%nat ∧
    sleeps new `prefix_of` [5; 2; 3]%nat ∧
    (completed_names new ≠ [] → sleeps new = [5; 2; 3]%nat).
Proof.
  destruct (device_iteration_cases E project_path scheme total c n cfg st)
    as (c' & st' & new & Hrun & Ht & H).
  exists c', st', new. split; [done|]. split; [done|].
  split; [destruct H as [(_ & -> & _)|(_ & -> & _)]; simpl; lia|].
  assert (Hl : ∃ l, slept l st st' ∧ l `prefix_of` [5; 2; 3]%nat ∧
                    (c' = S c → l = [5; 2; 3]%nat)).
  { revert Hrun. unfold device_iteration. rewrite bind_run, print_run.
    cbv beta iota. cbn [fst snd]. unfold try_except.
    set (st0 := add_event _ st).
    destruct (process_device_sleeps c n cfg st0) as (l & Hs & Hp & Hfull).
    assert (H0 : slept [] st st0) by (unfold st0; slept_solve).
    destruct (process_device _ _ _ _ _ _ st0) as [[c1|e] st1]; cbn [fst snd] in *.
    - intros [= -> ->]. exists l. split; [exact (slept_app [] l _ _ _ H0 Hs)|].
      split; [done|]. intros ->. by apply Hfull.
    - rewrite bind_run, print_run. cbv beta iota. unfold mret, M_ret.
      intros [= -> <-]. exists l. split; [|split; [done | lia]].
      rewrite <- (app_nil_r l). apply (slept_app [] _ _ _ _ H0).
      apply (slept_app l [] _ _ _ Hs). slept_solve. }
  destruct Hl as (l & Hs & Hp & Hfull).
  assert (sleeps new = l) as ->.
  { unfold slept in Hs. rewrite Ht in Hs. unfold sleeps in *.
    rewrite omap_app in Hs. by apply app_inv_head in Hs. }
  split; [done|]. intros Hne. apply Hfull.
  destruct H as [(_ & Hnil & _)|(-> & _)]; done.
Qed.

Lemma sum_list_append (l1 l2 : list nat) :
  sum_list (l1 ++ l2) = (sum_list l1 + sum_list l2)%nat.
Proof. induction l1 as [|a l1 IH]; simpl; [done | rewrite IH; lia]. Qed.

Lemma delays_of_one_device (l : list nat) :
  l `prefix_of` [5; 2; 3]%nat →
  Forall (λ n, n ∈ [5; 2; 3]%nat) l ∧ (sum_list l ≤ 10)%nat.
Proof.
  intros [k Hk].
  destruct l as [|a [|b [|d [|x l]]]]; simplify_eq/=; split;
    repeat constructor; simpl; lia.
Qed.

Lemma device_loop_delays total (devs : list (string * DeviceConfig)) c st :
  ∃ c' st' new,
    for_fold devs c (device_iteration E project_path scheme total) st = (Ok c', st') ∧
    trace st' = trace st ++ new ∧
    Forall (λ n, n ∈ [5; 2; 3]%nat) (sleeps new) ∧
    (10 * length (completed_names new) ≤ sum_list (sleeps new) ≤ 10 * length devs)%nat.
Proof.
  revert c st. induction devs as [|[n cfg] devs IH]; intros c st; simpl.
  - exists c, st, []. rewrite app_nil_r. repeat split; try done; simpl; lia.
  - destruct (device_iteration_delays total c n cfg st)
      as (c1 & st1 & new1 & Hrun1 & Ht1 & Hone1 & Hp1 & Hfull1).
    destruct (IH c1 st1) as (c' & st' & new2 & Hrun2 & Ht2 & Hall2 & Hsum2).
    exists c', st', (new1 ++ new2). rewrite bind_run, Hrun1.
    split; [done|]. split; [by rewrite Ht2, Ht1, app_assoc|].
    destruct (delays_of_one_device _ Hp1) as [Hall1 Hsum1].
    unfold sleeps in *. rewrite omap_app, completed_names_app, length_app, sum_list_append.
    split; [by apply Forall_app|].
    assert (Hone : (10 * length (completed_names new1)
                    ≤ sum_list (omap (λ e, match e with Sleep n0 => Some n0 | _ => None end)
                                  new1))%nat).
    { destruct (completed_names new1) as [|x [|y k]] eqn:Hk; simpl in *; [lia| |lia].
      rewrite Hfull1 by done. simpl. lia. }
    lia.
Qed.

(** X18.  The fixed delays.  The only delays of a run are the three the
    script takes for a device: 5 seconds after the boot command, 2 after
    opening the Simulator application, 3 after the settings commands.  A
    run sleeps at least ten seconds for each device it completes and at
    most ten for each device of the selection. *)
Theorem run_delays_are_bounded (clean : bool) (sd : option string)
    (devs : list (string * DeviceConfig)) (o : OutputDir) :
  devices_to_process sd = Some devs →
  let t := trace (generate_all_screenshots E project_path scheme clean sd
                    (initial o)).2 in
  Forall (λ n, n ∈ [5; 2; 3]%nat) (sleeps t) ∧
  (10 * length (completed_names t) ≤ sum_list (sleeps t) ≤ 10 * length devs)%nat.
Proof.
  intros Hsel. cbv zeta.
  destruct (device_loop_delays (length devs) devs 0 (prologue clean (initial o)))
    as (c & st2 & new & Hloop & Ht & Hall & Hsum).
  rewrite (generate_all_screenshots_run _ _ _ _ _ _ _ _ _ Hsel Hloop).
  cbn [snd trace]. rewrite Ht, completed_names_run_trace.
  assert (Hs : sleeps ((trace (prologue clean (initial o)) ++ new)
                       ++ epilogue project_path c (length devs)) = sleeps new).
  { unfold sleeps. rewrite !omap_app.
    assert (Hpost : omap (λ e, match e with Sleep n => Some n | _ => None end)
                      (epilogue project_path c (length devs)) = []).
    { unfold epilogue. rewrite omap_app. by destruct (c <? length devs)%nat. }
    rewrite Hpost, app_nil_r. by destruct clean. }
  by rewrite Hs.
Qed.

End Delays.

Lemma run_delays_are_bounded_witness :
  let t := trace (generate_all_screenshots (Fixture.env Fixture.well_named) "."
                    "OneBox" false (Some "iPhone 15") (initial Fixture.empty_dir)).2 in
  Forall (λ n, n ∈ [5; 2; 3]%nat) (sleeps t) ∧
  (10 * length (completed_names t) ≤ sum_list (sleeps t) ≤ 10 * 1)%nat.
Proof.
  apply (run_delays_are_bounded (Fixture.env Fixture.well_named) "." "OneBox" false
           (Some "iPhone 15") [("iPhone 15", _)] Fixture.empty_dir eq_refl).
Defined.

(** ** The name a simulator is looked up by *)

(** Some listing decoded by the environment holds an available simulator
    named [n] with an identifier that is not empty. *)
Definition listed_under (E : Env) (n : string) : Prop :=
  ∃ s runtimes dev,
    json_loads E s = inr runtimes ∧ candidate n runtimes dev ∧ udid dev ≠ "".

Section LookupKey.

Variable E : Env.
Variables project_path scheme : string.

Lemma process_device_counts_listed (c : nat) (n : string) (cfg : DeviceConfig)
    (st : State) :
  (process_device E project_path scheme c n cfg st).1 = Ok (S c) →
  listed_under E n.
Proof.
  unfold process_device. rewrite bind_run.
  pose proof (boot_simulator_cases E n st) as [_ H]. cbv zeta in H.
  destruct (boot_simulator E n st) as [[[u|]|e] st1]; cbn [fst snd] in *.
  - intros _. destruct H as (Hu & _ & p & runtimes & q & _ & _ & Hjson & Hfind & _).
    apply find_device_from in Hfind as [[=]|(dev & Hdev & <-)].
    by exists (stdout p), runtimes, dev.
  - unfold mret, M_ret. cbn [fst]. intros [=]. lia.
  - done.
Qed.

Lemma device_iteration_counts_listed total c n cfg st st' :
  device_iteration E project_path scheme total c (n, cfg) st = (Ok (S c), st') →
  listed_under E n.
Proof.
  unfold device_iteration. rewrite bind_run, print_run. cbv beta iota.
  cbn [fst snd]. unfold try_except. set (st0 := add_event _ st).
  pose proof (process_device_counts_listed c n cfg st0) as H.
  destruct (process_device _ _ _ _ _ _ st0) as [[c1|e] st1]; cbn [fst] in H.
  - intros [= -> _]. by apply H.
  - rewrite bind_run, print_run. cbv beta iota. unfold mret, M_ret.
    intros [= ? _]. lia.
Qed.

Lemma device_loop_counts_listed total (devs : list (string * DeviceConfig)) c st :
  ∃ c' st' new,
    for_fold devs c (device_iteration E project_path scheme total) st = (Ok c', st') ∧
    trace st' = trace st ++ new ∧
    ∀ n, n ∈ completed_names new → listed_under E n.
Proof.
  revert c st. induction devs as [|[n cfg] devs IH]; intros c st; simpl.
  - exists c, st, []. rewrite app_nil_r. split; [done|]. split; [done|].
    intros n Hn. by apply elem_of_nil in Hn.
  - destruct (device_iteration_cases E project_path scheme total c n cfg st)
      as (c1 & st1 & new1 & Hrun1 & Ht1 & H1).
    destruct (IH c1 st1) as (c' & st' & new2 & Hrun2 & Ht2 & H2).
    exists c', st', (new1 ++ new2). rewrite bind_run, Hrun1.
    split; [done|]. split; [by rewrite Ht2, Ht1, app_assoc|].
    intros m. rewrite completed_names_app, elem_of_app. intros [Hm|Hm]; [|by apply H2].
    destruct H1 as [(_ & Hnone & _)|(-> & Hone & _)].
    + rewrite Hnone in Hm. by apply elem_of_nil in Hm.
    + rewrite Hone in Hm. apply list_elem_of_singleton in Hm as ->.
      by eapply device_iteration_counts_listed.
Qed.

(** X19.  The name a simulator is looked up by.  A device that a run
    completes is a device of the selection, and some listing decoded
    during the run held an available simulator, with an identifier that is
    not empty, whose name is the key of the device in the table; the
    [simulator] field of the profile plays no part in the search.  The
    profile filed under [iPad Pro 12.9-inch] is thus completed only where
    a simulator bears that very name. *)
Theorem completed_device_was_listed_under_its_key (clean : bool)
    (sd : option string) (devs : list (string * DeviceConfig)) (o : OutputDir)
    (n : string) :
  devices_to_process sd = Some devs →
  n ∈ completed_names
        (trace (generate_all_screenshots E project_path scheme clean sd
                  (initial o)).2) →
  n ∈ devs.*1 ∧
  ∃ s runtimes rt dl dev,
    json_loads E s = inr runtimes ∧
    (rt, dl) ∈ runtimes ∧ dev ∈ dl ∧
    sim_name dev = n ∧ isAvailable dev = true ∧ udid dev ≠ "".
Proof.
  intros Hsel.
  destruct (device_loop_counts_listed (length devs) devs 0 (prologue clean (initial o)))
    as (c & st2 & new & Hloop & Ht & H).
  destruct (device_loop_cases E project_path scheme (length devs) devs 0
              (prologue clean (initial o)) (devices_to_process_NoDup _ _ Hsel))
    as (c2 & st3 & new' & Hloop' & Ht' & _ & Hsub & _).
  rewrite Hloop in Hloop'. injection Hloop' as <- <-.
  rewrite Ht in Ht'. apply app_inv_head in Ht'. subst new'.
  rewrite (generate_all_screenshots_run _ _ _ _ _ _ _ _ _ Hsel Hloop).
  cbn [snd trace]. rewrite Ht, completed_names_run_trace. intros Hn.
  split; [by eapply elem_of_sublist|].
  destruct (H n Hn) as (s & runtimes & dev & Hjson & ((rt & dl & Hin & Hdev) & Hname & Ha) & Hu).
  by exists s, runtimes, rt, dl, dev.
Qed.

End LookupKey.

Lemma completed_device_was_listed_under_its_key_witness :
  "iPad Pro 12.9-inch" ∈ SCREENSHOT_DEVICES.*1 ∧
  ∃ s runtimes rt dl dev,
    json_loads (Fixture.env Fixture.well_named) s = inr runtimes ∧
    (rt, dl) ∈ runtimes ∧ dev ∈ dl ∧
    sim_name dev = "iPad Pro 12.9-inch" ∧ isAvailable dev = true ∧ udid dev ≠ "".
Proof.
  apply (completed_device_was_listed_under_its_key (Fixture.env Fixture.well_named)
           "." "OneBox" false None SCREENSHOT_DEVICES Fixture.empty_dir
           "iPad Pro 12.9-inch" eq_refl).
  assert (Hdone : completed_names
                    (trace (generate_all_screenshots (Fixture.env Fixture.well_named)
                              "." "OneBox" false None (initial Fixture.empty_dir)).2)
                  = ["iPhone 15 Pro Max"; "iPhone 15"; "iPad Pro 12.9-inch"])
    by (vm_compute; reflexivity).
  rewrite Hdone. right. right. left.
Defined.
